(** * robust-data-processor: ingest normalizer and batch worker

    A shallow embedding of the two Go programs of the repository,
    [ingest/main.go] (HTTP request -> LogEvent -> queue) and
    [worker/main.go] (queue batch -> redaction -> table), together with
    the parts of the Go runtime and of the managed services they call.

    Go strings are byte sequences: they are modelled by [string]
    (a list of 8-bit [ascii]), [len] by [String.length]. *)

From Stdlib Require Import ZArith Ascii String List Lia.
From stdpp Require Import base option gmap strings list.

Open Scope string_scope.

(** The first of two optional results. *)
Definition or_else {A} (x y : option A) : option A :=
  match x with Some _ => x | None => y end.

(** ** Bytes and the [strings] package *)

Module GoStrings.

Definition byte_of (c : ascii) : N := N_of_ascii c.

(** The double quote, byte 34. *)
Definition dquote : ascii := "034"%char.

Definition in_range (lo hi : N) (c : ascii) : bool :=
  ((lo <=? byte_of c) && (byte_of c <=? hi))%N.

Definition is_digit : ascii -> bool := in_range 48 57.
Definition is_upper : ascii -> bool := in_range 65 90.
Definition is_lower : ascii -> bool := in_range 97 122.

(** [\w] of RE2: [0-9A-Za-z_]. *)
Definition is_word (c : ascii) : bool :=
  is_digit c || is_upper c || is_lower c || Ascii.eqb c "_".

Definition lower_byte (c : ascii) : ascii :=
  if is_upper c then ascii_of_N (byte_of c + 32) else c.

(** [strings.ToLower].  Go lowers the letters A to Z, and the runes
    above U+007F by the Unicode tables.  Two of these become ASCII
    letters: U+0130 (bytes C4 B0) becomes i and U+212A (bytes E2 84 AA)
    becomes k.  Every other rune above U+007F, and every byte that is
    not part of a rune, becomes bytes above 127 again: they are kept
    here as they are, which no comparison with an ASCII name, the only
    use the ingest handler makes of the result, can tell apart. *)
Fixpoint ToLower (s : string) : string :=
  match s with
  | EmptyString => EmptyString
  | String "196" (String "176" s') => String "i" (ToLower s')
  | String "226" (String "132" (String "170" s')) => String "k" (ToLower s')
  | String c s' => String (lower_byte c) (ToLower s')
  end.

Fixpoint HasPrefix (s prefix : string) : bool :=
  match prefix, s with
  | EmptyString, _ => true
  | String p prefix', String c s' => Ascii.eqb c p && HasPrefix s' prefix'
  | String _ _, EmptyString => false
  end.

(** [strings.Contains]: [substr] occurs in [s] as a run of bytes. *)
Fixpoint Contains (s substr : string) : bool :=
  HasPrefix s substr ||
  match s with
  | EmptyString => false
  | String _ s' => Contains s' substr
  end.

(** A string literal of the source written between double quotes. *)
Definition quoted (s : string) : string := String dquote (s ++ String dquote "").

End GoStrings.

(** ** The fragment of [regexp] (RE2 syntax) used by the worker *)

Module Regexp.
Import GoStrings.

Inductive node : Type :=
| WordBoundary                    (* \b, ASCII word boundary *)
| Class (p : ascii -> bool)       (* one byte of a character class *)
| Quest (p : ascii -> bool)       (* x?  greedy *)
| Plus (p : ascii -> bool).       (* x+  greedy *)

Definition regexp : Type := list node.

(** x{n} is n copies of x. *)
Definition times (n : nat) (p : ascii -> bool) : regexp := repeat (Class p) n.

Definition word_before (prev : option ascii) : bool :=
  match prev with Some c => is_word c | None => false end.

Definition word_after (s : string) : bool :=
  match s with String c _ => is_word c | EmptyString => false end.

(** Anchored match at the current position; [prev] is the byte before
    it.  The result is the length of the match that a backtracking
    matcher preferring the greedy choice finds first, which is RE2's
    leftmost-first match. *)
Fixpoint match_here (re : regexp) (prev : option ascii) (s : string)
  : option nat :=
  match re with
  | [] => Some O
  | WordBoundary :: re' =>
      if xorb (word_before prev) (word_after s)
      then match_here re' prev s else None
  | Class p :: re' =>
      match s with
      | String c s' =>
          if p c then S <$> match_here re' (Some c) s' else None
      | EmptyString => None
      end
  | Quest p :: re' =>
      match s with
      | String c s' =>
          if p c
          then or_else (S <$> match_here re' (Some c) s') (match_here re' prev s)
          else match_here re' prev s
      | EmptyString => match_here re' prev s
      end
  | Plus p :: re' =>
      (fix plus (prev : option ascii) (s : string) : option nat :=
         match s with
         | String c s' =>
             if p c
             then S <$> or_else (plus (Some c) s') (match_here re' (Some c) s')
             else None
         | EmptyString => None
         end) prev s
  end.

(** [Regexp.ReplaceAllString] for a replacement without [$]: scan from
    the left, replace each match, resume after it.  [skip] counts the
    bytes of the current match still to be dropped, [adj] tells that a
    match ended exactly here (an empty match there is not replaced
    again). *)
Fixpoint replace_from (re : regexp) (repl : string)
    (prev : option ascii) (skip : nat) (adj : bool) (s : string) : string :=
  match skip with
  | S k =>
      match s with
      | String c s' => replace_from re repl (Some c) k true s'
      | EmptyString => EmptyString
      end
  | O =>
      match match_here re prev s with
      | Some (S n) =>
          repl ++
          match s with
          | String c s' => replace_from re repl (Some c) n true s'
          | EmptyString => EmptyString
          end
      | Some O =>
          (if adj then "" else repl) ++
          match s with
          | String c s' => String c (replace_from re repl (Some c) O false s')
          | EmptyString => EmptyString
          end
      | None =>
          match s with
          | String c s' => String c (replace_from re repl (Some c) O false s')
          | EmptyString => EmptyString
          end
      end
  end.

Definition ReplaceAllString (re : regexp) (src repl : string) : string :=
  replace_from re repl None O false src.

End Regexp.

(** ** [time.Duration]: signed 64-bit nanoseconds *)

Module GoTime.
Open Scope Z_scope.

Definition min_int64 : Z := - 2 ^ 63.
Definition max_int64 : Z := 2 ^ 63 - 1.

(** Two's complement wrap-around of an int64 operation. *)
Definition wrap64 (z : Z) : Z := (z + 2 ^ 63) mod 2 ^ 64 - 2 ^ 63.

Definition mul64 (a b : Z) : Z := wrap64 (a * b).

Definition Millisecond : Z := 1000000.
Definition Second : Z := 1000000000.

End GoTime.

(** ** UTF-8, as [unicode/utf8] validates and encodes it *)

Module Utf8.
Import GoStrings.
Open Scope N_scope.

Definition is_cont : ascii -> bool := in_range 128 191.

(** Length in bytes of the well-formed encoding that starts [s]; [O]
    where [utf8.DecodeRune] answers [(RuneError, 1)]. *)
Definition rune_len (s : string) : nat :=
  match s with
  | EmptyString => O
  | String c0 s1 =>
      let b0 := byte_of c0 in
      if b0 <? 128 then 1%nat
      else if b0 <? 194 then O
      else if b0 <? 224 then
        match s1 with
        | String c1 _ => if is_cont c1 then 2%nat else O
        | _ => O
        end
      else if b0 <? 240 then
        match s1 with
        | String c1 (String c2 _) =>
            let lo := if b0 =? 224 then 160 else 128 in
            let hi := if b0 =? 237 then 159 else 191 in
            if in_range lo hi c1 && is_cont c2 then 3%nat else O
        | _ => O
        end
      else if b0 <? 245 then
        match s1 with
        | String c1 (String c2 (String c3 _)) =>
            let lo := if b0 =? 240 then 144 else 128 in
            let hi := if b0 =? 244 then 143 else 191 in
            if in_range lo hi c1 && is_cont c2 && is_cont c3 then 4%nat else O
        | _ => O
        end
      else O
  end.

Definition chr (n : N) : ascii := ascii_of_N n.

(** U+FFFD, the replacement character. *)
Definition RuneError : N := 65533.

Definition is_surrogate (r : N) : bool := (55296 <=? r) && (r <? 57344).

(** [utf8.AppendRune]. *)
Definition encode (r : N) : string :=
  let r := if is_surrogate r || (1114111 <? r) then RuneError else r in
  if r <? 128 then String (chr r) ""
  else if r <? 2048 then
    String (chr (192 + r / 64)) (String (chr (128 + r mod 64)) "")
  else if r <? 65536 then
    String (chr (224 + r / 4096))
      (String (chr (128 + (r / 64) mod 64)) (String (chr (128 + r mod 64)) ""))
  else
    String (chr (240 + r / 262144))
      (String (chr (128 + (r / 4096) mod 64))
         (String (chr (128 + (r / 64) mod 64)) (String (chr (128 + r mod 64)) ""))).

End Utf8.

(** ** [encoding/json] *)

Module Json.
Import GoStrings.

(** A JSON text as the decoder sees it.  A number keeps its literal. *)
#[warnings="-register-all"] Inductive value : Type :=
| Null
| Bool (b : bool)
| Number (lit : string)
| Str (s : string)
| Array (elems : list value)
| Object (members : list (string * value)).

(** The kind of value an [UnmarshalTypeError] names. *)
Definition kind_of (v : value) : string :=
  match v with
  | Null => "null"
  | Bool _ => "bool"
  | Number _ => "number"
  | Str _ => "string"
  | Array _ => "array"
  | Object _ => "object"
  end.

Definition is_space (c : ascii) : bool :=
  Ascii.eqb c " " || Ascii.eqb c "009" || Ascii.eqb c "010" || Ascii.eqb c "013".

Definition hex_val (c : ascii) : option N :=
  let b := byte_of c in
  if is_digit c then Some (b - 48)%N
  else if in_range 97 102 c then Some (b - 87)%N
  else if in_range 65 70 c then Some (b - 55)%N
  else None.

(** [getu4] on the four bytes after a backslash and a u. *)
Definition hex4 (a b c d : ascii) : option N :=
  match hex_val a, hex_val b, hex_val c, hex_val d with
  | Some x, Some y, Some z, Some w => Some (((x * 16 + y) * 16 + z) * 16 + w)%N
  | _, _, _, _ => None
  end.

Definition simple_escape (e : ascii) : option ascii :=
  if Ascii.eqb e dquote then Some dquote
  else if Ascii.eqb e "\" then Some "\"%char
  else if Ascii.eqb e "/" then Some "/"%char
  else if Ascii.eqb e "b" then Some "008"%char
  else if Ascii.eqb e "f" then Some "012"%char
  else if Ascii.eqb e "n" then Some "010"%char
  else if Ascii.eqb e "r" then Some "013"%char
  else if Ascii.eqb e "t" then Some "009"%char
  else None.

(** [utf16.DecodeRune] on a pair of escapes. *)
Definition surrogate_pair (hi lo : N) : option N :=
  if ((55296 <=? hi) && (hi <? 56320) && (56320 <=? lo) && (lo <? 57344))%N
  then Some ((hi - 55296) * 1024 + (lo - 56320) + 65536)%N
  else None.

Definition emit (pre : string) (r : option (string * string))
  : option (string * string) :=
  match r with Some (out, rest) => Some (pre ++ out, rest) | None => None end.

(** The text after an opening quote: the decoded string and what
    follows the closing quote.  Control bytes and unknown escapes are
    refused, as the scanner does; ill-formed UTF-8 and unpaired
    surrogates become U+FFFD, as [unquote] does.  [copy] counts the
    continuation bytes of the current well-formed rune still to be
    copied. *)
Fixpoint string_lit (copy : nat) (s : string) : option (string * string) :=
  match s with
  | EmptyString => None
  | String c s1 =>
      match copy with
      | S k => emit (String c "") (string_lit k s1)
      | O =>
          if Ascii.eqb c dquote then Some ("", s1)
          else if Ascii.eqb c "\" then
            match s1 with
            | String "u" (String h1 (String h2 (String h3 (String h4 s2)))) =>
                match hex4 h1 h2 h3 h4 with
                | None => None
                | Some r =>
                    if Utf8.is_surrogate r then
                      match s2 with
                      | String "\" (String "u"
                          (String l1 (String l2 (String l3 (String l4 s3))))) =>
                          match hex4 l1 l2 l3 l4 ≫= surrogate_pair r with
                          | Some r' => emit (Utf8.encode r') (string_lit O s3)
                          | None => emit (Utf8.encode Utf8.RuneError) (string_lit O s2)
                          end
                      | _ => emit (Utf8.encode Utf8.RuneError) (string_lit O s2)
                      end
                    else emit (Utf8.encode r) (string_lit O s2)
                end
            | String e s2 =>
                match simple_escape e with
                | Some c' => emit (String c' "") (string_lit O s2)
                | None => None
                end
            | EmptyString => None
            end
          else if (byte_of c <? 32)%N then None
          else if (byte_of c <? 128)%N then emit (String c "") (string_lit O s1)
          else
            match Utf8.rune_len s with
            | O => emit (Utf8.encode Utf8.RuneError) (string_lit O s1)
            | S n => emit (String c "") (string_lit n s1)
            end
      end
  end.

Fixpoint span (p : ascii -> bool) (s : string) : string * string :=
  match s with
  | String c s' =>
      if p c then let '(a, b) := span p s' in (String c a, b) else ("", s)
  | EmptyString => ("", "")
  end.

(** A number literal: an optional minus; 0 or a digit 1-9 followed by
    digits; optionally a dot and one digit or more; optionally e or E,
    a sign and one digit or more. *)
Definition number_lit (s : string) : option (string * string) :=
  let '(sign, s) :=
    match s with String "-" s' => ("-", s') | _ => ("", s) end in
  let '(int, s) := span is_digit s in
  match int with
  | EmptyString => None
  | String d int' =>
      if Ascii.eqb d "0" && negb (String.eqb int' "") then
        (* a leading 0 ends the integer part *)
        Some (sign ++ "0", int' ++ s)
      else
        let frac :=
          match s with
          | String "." s' =>
              let '(ds, s'') := span is_digit s' in
              if String.eqb ds "" then None else Some ("." ++ ds, s'')
          | _ => Some ("", s)
          end in
        match frac with
        | None => None
        | Some (f, s) =>
            match s with
            | String e s' =>
                if Ascii.eqb e "e" || Ascii.eqb e "E" then
                  let '(es, s') :=
                    match s' with
                    | String "+" s'' => ("+", s'')
                    | String "-" s'' => ("-", s'')
                    | _ => ("", s')
                    end in
                  let '(ds, s'') := span is_digit s' in
                  if String.eqb ds "" then None
                  else Some (sign ++ int ++ f ++ String e es ++ ds, s'')
                else Some (sign ++ int ++ f, s)
            | EmptyString => Some (sign ++ int ++ f, s)
            end
        end
  end.

(** *** The scanner

    The text is cut into tokens, and the tokens drive the state machine
    of [scanner.go], which keeps the stack of the arrays and objects
    that are open. *)

Inductive token : Type :=
| TBeginObject | TEndObject | TBeginArray | TEndArray | TComma | TColon
| TScalar (v : value).      (* a string, a number, true, false or null *)

(** The tokens of a text.  [skip] counts the bytes of the token just
    read that are still to be passed. *)
Fixpoint tokens_from (skip : nat) (s : string) : option (list token) :=
  match s with
  | EmptyString => Some []
  | String c s1 =>
      match skip with
      | S k => tokens_from k s1
      | O =>
          if is_space c then tokens_from O s1
          else if Ascii.eqb c "{" then cons TBeginObject <$> tokens_from O s1
          else if Ascii.eqb c "}" then cons TEndObject <$> tokens_from O s1
          else if Ascii.eqb c "[" then cons TBeginArray <$> tokens_from O s1
          else if Ascii.eqb c "]" then cons TEndArray <$> tokens_from O s1
          else if Ascii.eqb c "," then cons TComma <$> tokens_from O s1
          else if Ascii.eqb c ":" then cons TColon <$> tokens_from O s1
          else if Ascii.eqb c dquote then
            match string_lit O s1 with
            | Some (str, rest) =>
                cons (TScalar (Str str)) <$>
                  tokens_from (String.length s1 - String.length rest) s1
            | None => None
            end
          else if HasPrefix s "true" then
            cons (TScalar (Bool true)) <$> tokens_from 3 s1
          else if HasPrefix s "false" then
            cons (TScalar (Bool false)) <$> tokens_from 4 s1
          else if HasPrefix s "null" then
            cons (TScalar Null) <$> tokens_from 3 s1
          else
            match number_lit s with
            | Some (lit, _) =>
                cons (TScalar (Number lit)) <$>
                  tokens_from (String.length lit - 1) s1
            | None => None
            end
      end
  end.

(** An array or object that is open, with what it holds so far, last
    first; an object also with the key that was read last. *)
Inductive frame : Type :=
| InArray (elems : list value)
| InObject (members : list (string * value)) (key : string).

(** What the scanner expects next. *)
Inductive state : Type :=
| BeginValue            (* a value *)
| BeginValueOrEmpty     (* after [: a value or ] *)
| BeginString           (* after a comma in an object: a key *)
| BeginStringOrEmpty    (* after {: a key or } *)
| ObjectKey             (* after a key: a colon *)
| EndValue              (* after a value in an array or object *)
| EndTop (v : value).   (* after the value of the text: nothing *)

(** The scanner refuses a text nested deeper than this. *)
Definition maxNestingDepth : N := 10000.

(** A value is complete: it goes into the innermost open array or
    object, or it is the value of the text. *)
Definition end_value (v : value) (stack : list frame) : list frame * state :=
  match stack with
  | [] => ([], EndTop v)
  | InArray elems :: below => (InArray (v :: elems) :: below, EndValue)
  | InObject members key :: below =>
      (InObject ((key, v) :: members) key :: below, EndValue)
  end.

Fixpoint scan (ts : list token) (stack : list frame) (st : state)
  : option value :=
  match ts with
  | [] => match st with EndTop v => Some v | _ => None end
  | t :: ts' =>
      let push (f : frame) (st' : state) :=
        if (N.of_nat (List.length stack) <? maxNestingDepth)%N
        then scan ts' (f :: stack) st' else None in
      let finish (v : value) (below : list frame) :=
        let '(stack', st') := end_value v below in scan ts' stack' st' in
      match st, t with
      | (BeginValue | BeginValueOrEmpty), TScalar v => finish v stack
      | (BeginValue | BeginValueOrEmpty), TBeginArray =>
          push (InArray []) BeginValueOrEmpty
      | (BeginValue | BeginValueOrEmpty), TBeginObject =>
          push (InObject [] "") BeginStringOrEmpty
      | (BeginString | BeginStringOrEmpty), TScalar (Str key) =>
          match stack with
          | InObject members _ :: below =>
              scan ts' (InObject members key :: below) ObjectKey
          | _ => None
          end
      | ObjectKey, TColon => scan ts' stack BeginValue
      | EndValue, TComma =>
          match stack with
          | InArray _ :: _ => scan ts' stack BeginValue
          | InObject _ _ :: _ => scan ts' stack BeginString
          | [] => None
          end
      | (BeginValueOrEmpty | EndValue), TEndArray =>
          match stack with
          | InArray elems :: below => finish (Array (rev elems)) below
          | _ => None
          end
      | (BeginStringOrEmpty | EndValue), TEndObject =>
          match stack with
          | InObject members _ :: below => finish (Object (rev members)) below
          | _ => None
          end
      | _, _ => None
      end
  end.

(** A whole JSON text: one value, white space around it. *)
Definition parse (s : string) : option value :=
  ts ← tokens_from O s; scan ts [] BeginValue.

(** *** Numbers as float64

    Decoding into [interface{}] converts each number with
    [strconv.ParseFloat(s, 64)], which fails when the value rounds to
    an infinity. *)

Definition digit_val (c : ascii) : Z := Z.of_N (byte_of c - 48).

Fixpoint digits_val (acc : Z) (ds : string) : Z :=
  match ds with
  | EmptyString => acc
  | String c ds' => digits_val (10 * acc + digit_val c)%Z ds'
  end.

(** The exponent as [strconv] accumulates it: it stops growing at 10000. *)
Fixpoint exponent_val (acc : Z) (ds : string) : Z :=
  match ds with
  | EmptyString => acc
  | String c ds' =>
      exponent_val (if (acc <? 10000)%Z then 10 * acc + digit_val c else acc)%Z ds'
  end.

(** Half-way between the largest float64 and 2^1024: from there on,
    rounding to nearest even overflows. *)
Definition float64_limit : Z := (2 ^ 1024 - 2 ^ 970)%Z.

Definition float64_overflows (lit : string) : bool :=
  let s := match lit with String "-" s' => s' | _ => lit end in
  let '(int, s) := span is_digit s in
  let '(frac, s) :=
    match s with String "." s' => span is_digit s' | _ => ("", s) end in
  let exp :=
    match s with
    | String _ (String "-" ds) => (- exponent_val 0 ds)%Z
    | String _ (String "+" ds) => exponent_val 0 ds
    | String _ ds => exponent_val 0 ds
    | EmptyString => 0%Z
    end in
  let mant := digits_val 0 (int ++ frac) in
  let e10 := (exp - Z.of_nat (String.length frac))%Z in
  if (0 <=? e10)%Z then (float64_limit <=? mant * 10 ^ e10)%Z
  else (float64_limit * 10 ^ (- e10) <=? mant)%Z.

(** Does decoding [v] into an [interface{}] convert all its numbers? *)
Fixpoint numbers_fit (v : value) : bool :=
  match v with
  | Number lit => negb (float64_overflows lit)
  | Array elems => forallb numbers_fit elems
  | Object members => forallb (fun kv => numbers_fit (snd kv)) members
  | _ => true
  end.

(** A Go map filled member by member: the last of equal keys stays. *)
Definition map_of_members (members : list (string * value)) : gmap string value :=
  fold_left (fun m kv => <[fst kv := snd kv]> m) members ∅.

(** *** Encoding of strings ([appendString] with HTML escaping, which
    [json.Marshal] uses; short escapes for backspace and form feed as
    since Go 1.22) *)

Definition hex_digit (n : N) : ascii :=
  if (n <? 10)%N then ascii_of_N (48 + n) else ascii_of_N (87 + n).

Definition escape_byte (c : ascii) : string :=
  let b := byte_of c in
  if Ascii.eqb c "\" || Ascii.eqb c dquote then String "\" (String c "")
  else if (b =? 8)%N then "\b"
  else if (b =? 12)%N then "\f"
  else if (b =? 10)%N then "\n"
  else if (b =? 13)%N then "\r"
  else if (b =? 9)%N then "\t"
  else if (b <? 32)%N || Ascii.eqb c "<" || Ascii.eqb c ">" || Ascii.eqb c "&"
  then "\u00" ++ String (hex_digit (b / 16)) (String (hex_digit (b mod 16)) "")
  else String c "".

Fixpoint quote_from (copy : nat) (s : string) : string :=
  match s with
  | EmptyString => ""
  | String c s1 =>
      match copy with
      | S k => String c (quote_from k s1)
      | O =>
          if (byte_of c <? 128)%N then escape_byte c ++ quote_from O s1
          else
            match Utf8.rune_len s with
            | O => "\ufffd" ++ quote_from O s1
            | S n =>
                match s with
                | String "226" (String "128" (String "168" s4)) =>
                    "\u2028" ++ quote_from O s4
                | String "226" (String "128" (String "169" s4)) =>
                    "\u2029" ++ quote_from O s4
                | _ => String c (quote_from n s1)
                end
            end
      end
  end.

Definition quote (s : string) : string :=
  String dquote (quote_from O s ++ String dquote "").

(** *** Field names of a struct: exact, else equal under case folding.
    Of the runes outside ASCII only U+017F folds to an ASCII letter
    (S) and U+212A (to K). *)

Definition upper_byte (c : ascii) : ascii :=
  if is_lower c then ascii_of_N (byte_of c - 32) else c.

Fixpoint foldName (s : string) : option string :=
  match s with
  | EmptyString => Some ""
  | String "197" (String "191" s') => String "S" <$> foldName s'
  | String "226" (String "132" (String "170" s')) => String "K" <$> foldName s'
  | String c s' =>
      if (byte_of c <? 128)%N then String (upper_byte c) <$> foldName s' else None
  end.

Definition name_matches (field key : string) : bool :=
  String.eqb field key ||
  match foldName key with
  | Some k => match foldName field with Some f => String.eqb f k | None => false end
  | None => false
  end.

End Json.

(** ** Go values shared by the two programs *)

(** The errors that reach the handlers. *)
Inductive error : Type :=
| SyntaxError                          (* encoding/json: not a JSON text *)
| UnmarshalTypeError (what : string)   (* encoding/json: JSON value of the wrong kind *)
| OperationError (msg : string).       (* AWS SDK: the service call failed *)

(** [log/slog] records written to the process output. *)
Module Slog.

Inductive Level : Type := LevelInfo | LevelError.

Inductive Value : Type :=
| StringValue (s : string)
| IntValue (n : Z)
| ErrorValue (e : error).

Record Record : Type := mkRecord {
  level : Level;
  msg : string;
  attrs : list (string * Value)
}.

End Slog.

(** [time.Time] in UTC, as nanoseconds since the Unix epoch, and its
    RFC 3339 layout. *)
Module Clock.
Open Scope Z_scope.

Definition digit (n : Z) : ascii := ascii_of_N (48 + Z.to_N (n mod 10)).

Definition two (n : Z) : string := String (digit (n / 10)) (String (digit n) "").

Definition four (n : Z) : string :=
  String (digit (n / 1000)) (String (digit (n / 100)) (two n)).

(** Civil date of a day number counted from 1970-01-01 (proleptic
    Gregorian calendar). *)
Definition civil_from_days (days : Z) : Z * Z * Z :=
  let z := days + 719468 in
  let era := z / 146097 in
  let doe := z - era * 146097 in
  let yoe := (doe - doe / 1460 + doe / 36524 - doe / 146096) / 365 in
  let doy := doe - (365 * yoe + yoe / 4 - yoe / 100) in
  let mp := (5 * doy + 2) / 153 in
  let d := doy - (153 * mp + 2) / 5 + 1 in
  let m := if mp <? 10 then mp + 3 else mp - 9 in
  let y := yoe + era * 400 + (if m <=? 2 then 1 else 0) in
  (y, m, d).

(** [t.UTC().Format(time.RFC3339)], for years 0 to 9999. *)
Definition RFC3339 (t : Z) : string :=
  let secs := t / GoTime.Second in
  let '(y, m, d) := civil_from_days (secs / 86400) in
  let sod := secs mod 86400 in
  (four y ++ "-" ++ two m ++ "-" ++ two d ++ "T" ++
   two (sod / 3600) ++ ":" ++ two (sod / 60 mod 60) ++ ":" ++ two (sod mod 60) ++
   "Z")%string.

End Clock.

(** ** The table of [main.tf]: [aws_dynamodb_table.logs_table] *)

Module DynamoDB.

(** An item maps attribute names to values; the worker writes string
    (S) attributes only. *)
Abbreviation Item := (gmap string string).

(** The table: at most one item per primary key. *)
Abbreviation Table := (gmap (string * string) (gmap string string)).

Definition hash_key : string := "tenant_id".
Definition range_key : string := "log_id".

Definition primary_key (item : Item) : option (string * string) :=
  h ← item !! hash_key; r ← item !! range_key; Some (h, r).

(** [PutItem] without a condition expression: the item replaces
    whatever the table holds under its primary key.  [fault] is the
    failure of this call, if the service or the network makes it fail
    (throttling, time-out, a refused item, ...).  A call that fails is
    taken as not applied; the service may have applied it all the
    same, which the theorems on the worker leave open: none of them
    says what the table holds under the key of a write that failed. *)
Definition PutItem (fault : option error) (item : Item) (t : Table)
  : Table * option error :=
  match fault with
  | Some e => (t, Some e)
  | None =>
      match primary_key item with
      | Some k => (<[k := item]> t, None)
      | None => (t, Some (OperationError "ValidationException"))
      end
  end.

End DynamoDB.

(** ** worker/main.go *)

Module Worker.
Import GoStrings Regexp.

(** *** PII redaction patterns *)

Definition dash (c : ascii) : bool := Ascii.eqb c "-".
Definition dot (c : ascii) : bool := Ascii.eqb c ".".
Definition at_sign (c : ascii) : bool := Ascii.eqb c "@".
(** The class [-.] *)
Definition dash_or_dot (c : ascii) : bool := dash c || dot c.
(** The class [\w.-] *)
Definition word_dot_dash (c : ascii) : bool := is_word c || dot c || dash c.

(** \b\d{3}[-.]?\d{3}[-.]?\d{4}\b *)
Definition phonePattern : regexp :=
  ([WordBoundary] ++ times 3 is_digit ++ [Quest dash_or_dot] ++
   times 3 is_digit ++ [Quest dash_or_dot] ++ times 4 is_digit ++
   [WordBoundary])%list.

(** \b\d{3}-\d{2}-\d{4}\b *)
Definition ssnPattern : regexp :=
  ([WordBoundary] ++ times 3 is_digit ++ [Class dash] ++
   times 2 is_digit ++ [Class dash] ++ times 4 is_digit ++
   [WordBoundary])%list.

(** \b[\w.-]+@[\w.-]+\.\w+\b *)
Definition emailPattern : regexp :=
  [WordBoundary; Plus word_dot_dash; Class at_sign; Plus word_dot_dash;
   Class dot; Plus is_word; WordBoundary].

(** redactPII replaces sensitive patterns with [REDACTED] *)
Definition redactPII (text : string) : string :=
  let text := ReplaceAllString phonePattern text "[REDACTED]" in
  let text := ReplaceAllString ssnPattern text "[REDACTED]" in
  let text := ReplaceAllString emailPattern text "[REDACTED]" in
  text.

(** *** LogEvent and its decoding *)

(** LogEvent matches the format from ingest service *)
Record LogEvent : Type := mkLogEvent {
  TenantID : string;      (* json:"tenant_id" *)
  LogID : string;         (* json:"log_id" *)
  OriginalText : string;  (* json:"original_text" *)
  Source : string         (* json:"source" *)
}.

Definition zero_LogEvent : LogEvent := mkLogEvent "" "" "" "".

Inductive field : Type := FTenantID | FLogID | FOriginalText | FSource.

Definition field_name (f : field) : string :=
  match f with
  | FTenantID => "tenant_id"
  | FLogID => "log_id"
  | FOriginalText => "original_text"
  | FSource => "source"
  end.

Definition field_of_key (key : string) : option field :=
  find (fun f => Json.name_matches (field_name f) key)
       [FTenantID; FLogID; FOriginalText; FSource].

Definition set_field (f : field) (s : string) (ev : LogEvent) : LogEvent :=
  match f with
  | FTenantID => mkLogEvent s (LogID ev) (OriginalText ev) (Source ev)
  | FLogID => mkLogEvent (TenantID ev) s (OriginalText ev) (Source ev)
  | FOriginalText => mkLogEvent (TenantID ev) (LogID ev) s (Source ev)
  | FSource => mkLogEvent (TenantID ev) (LogID ev) (OriginalText ev) s
  end.

(** The members of an object stored into the struct, in order.  A
    string fills its field, [null] and unknown keys are skipped, any
    other value is a type error: the first one is kept and decoding
    goes on. *)
Fixpoint store_members (members : list (string * Json.value))
    (ev : LogEvent) (err : option error) : LogEvent * option error :=
  match members with
  | [] => (ev, err)
  | (key, v) :: rest =>
      match field_of_key key with
      | None => store_members rest ev err
      | Some f =>
          match v with
          | Json.Str s => store_members rest (set_field f s ev) err
          | Json.Null => store_members rest ev err
          | _ =>
              store_members rest ev
                (or_else err (Some (UnmarshalTypeError (Json.kind_of v))))
          end
      end
  end.

(** [json.Unmarshal(data, &event)] *)
Definition Unmarshal (data : string) (ev : LogEvent) : LogEvent * option error :=
  match Json.parse data with
  | None => (ev, Some SyntaxError)
  | Some (Json.Object members) => store_members members ev None
  | Some Json.Null => (ev, None)
  | Some v => (ev, Some (UnmarshalTypeError (Json.kind_of v)))
  end.

(** *** The world the worker runs in *)

Record World : Type := mkWorld {
  table : DynamoDB.Table;        (* contents of the table TABLE_NAME *)
  now : Z;                       (* wall clock, ns since the epoch *)
  faults : list (option error);  (* fate of the PutItem calls to come;
                                    calls beyond the list are served *)
  output : list Slog.Record      (* log records written so far *)
}.

Definition slog (lvl : Slog.Level) (w : World) (msg : string)
    (attrs : list (string * Slog.Value)) : World :=
  mkWorld (table w) (now w) (faults w)
          (output w ++ [Slog.mkRecord lvl msg attrs]).

(** [time.Sleep]: a duration that is negative or zero returns at once. *)
Definition Sleep (w : World) (d : Z) : World :=
  mkWorld (table w) (now w + Z.max d 0) (faults w) (output w).

(** [dynamoClient.PutItem] on the table. *)
Definition PutItem (w : World) (item : DynamoDB.Item) : World * option error :=
  let fault := match faults w with f :: _ => f | [] => None end in
  let '(t, err) := DynamoDB.PutItem fault item (table w) in
  (mkWorld t (now w) (tail (faults w)) (output w), err).

(** *** SQS events *)

Record SQSMessage : Type := mkSQSMessage {
  MessageId : string;
  Body : string
}.

Record SQSEvent : Type := mkSQSEvent { Records : list SQSMessage }.

Record SQSBatchItemFailure : Type :=
  mkSQSBatchItemFailure { ItemIdentifier : string }.

Record SQSEventResponse : Type :=
  mkSQSEventResponse { BatchItemFailures : list SQSBatchItemFailure }.

(** *** processMessage *)

(** SIMULATE HEAVY PROCESSING: 0.05s per character, capped at 5 seconds.
    [time.Duration(len) * 50 * time.Millisecond] is computed on int64,
    for [len] the length of the text. *)
Definition sleepDuration (len : Z) : Z :=
  let d := GoTime.mul64 (GoTime.mul64 len 50) GoTime.Millisecond in
  if (d >? 5 * GoTime.Second)%Z then (5 * GoTime.Second)%Z else d.

(** [len(s)] as a Go int. *)
Definition len (s : string) : Z := Z.of_nat (String.length s).

(** The item written for an event. *)
Definition item_of (event : LogEvent) (modifiedData : string) (t : Z)
  : DynamoDB.Item :=
  <["tenant_id" := TenantID event]>
  (<["log_id" := LogID event]>
  (<["source" := Source event]>
  (<["original_text" := OriginalText event]>
  (<["modified_data" := modifiedData]>
  (<["processed_at" := Clock.RFC3339 t]>
  (<["status" := "PROCESSED"]> ∅)))))).

Definition processMessage (w : World) (message : SQSMessage)
  : World * option error :=
  let '(event, err) := Unmarshal (Body message) zero_LogEvent in
  match err with
  | Some e => (w, Some e)
  | None =>
      let w := slog Slog.LevelInfo w "Processing message"
                 [("tenant_id", Slog.StringValue (TenantID event));
                  ("log_id", Slog.StringValue (LogID event));
                  ("text_length", Slog.IntValue (len (OriginalText event)))] in
      let w := Sleep w (sleepDuration (len (OriginalText event))) in
      (* Redact PII from text *)
      let modifiedData := redactPII (OriginalText event) in
      (* Write to DynamoDB with tenant isolation *)
      let '(w, err) := PutItem w (item_of event modifiedData (now w)) in
      match err with
      | Some e => (w, Some e)
      | None =>
          (slog Slog.LevelInfo w "Successfully processed"
             [("tenant_id", Slog.StringValue (TenantID event));
              ("log_id", Slog.StringValue (LogID event))],
           None)
      end
  end.

(** *** handler: the Partial Batch Failure pattern *)

(** The loop over [sqsEvent.Records], with the slice [failures]. *)
Fixpoint handler_loop (w : World) (failures : list SQSBatchItemFailure)
    (records : list SQSMessage) : World * list SQSBatchItemFailure :=
  match records with
  | [] => (w, failures)
  | message :: rest =>
      let '(w, err) := processMessage w message in
      match err with
      | Some e =>
          let w := slog Slog.LevelError w "Processing failed"
                     [("message_id", Slog.StringValue (MessageId message));
                      ("error", Slog.ErrorValue e)] in
          (* Mark only THIS message as failed - others in batch succeed *)
          handler_loop w
            (failures ++ [mkSQSBatchItemFailure (MessageId message)]) rest
      | None => handler_loop w failures rest
      end
  end.

Definition handler (w : World) (sqsEvent : SQSEvent)
  : World * (SQSEventResponse * option error) :=
  let '(w, failures) := handler_loop w [] (Records sqsEvent) in
  (w, (mkSQSEventResponse failures, None)).

End Worker.

(** ** ingest/main.go *)

Module Ingest.
Import GoStrings.

(** LogEvent is the normalized internal format for all ingested data *)
Record LogEvent : Type := mkLogEvent {
  TenantID : string;      (* json:"tenant_id" *)
  LogID : string;         (* json:"log_id" *)
  OriginalText : string;  (* json:"original_text" *)
  Source : string         (* json:"source" *)
}.

(** [events.APIGatewayV2HTTPRequest], the fields the handler reads.
    [Headers] is a Go map: the list holds its entries in the order in
    which [range] visits them, which the runtime chooses. *)
Record APIGatewayV2HTTPRequest : Type := mkRequest {
  Headers : list (string * string);
  Body : string
}.

Record APIGatewayV2HTTPResponse : Type := mkResponse {
  StatusCode : Z;
  ResponseHeaders : gmap string string;
  ResponseBody : string
}.

Record SendMessageInput : Type := mkSendMessageInput {
  MessageBody : string;
  QueueUrl : string
}.

(** *** The world the handler runs in *)

Record World : Type := mkWorld {
  queueURL : string;              (* os.Getenv("QUEUE_URL") *)
  random_uuid : string;           (* what uuid.New().String() draws *)
  fault : option error;           (* fate of the SendMessage call, if made *)
  calls : list SendMessageInput;  (* SendMessage calls made so far *)
  queue : list string;            (* message bodies the queue accepted *)
  output : list Slog.Record       (* log records written so far *)
}.

Definition slog_Error (w : World) (msg : string)
    (attrs : list (string * Slog.Value)) : World :=
  mkWorld (queueURL w) (random_uuid w) (fault w) (calls w) (queue w)
          (output w ++ [Slog.mkRecord Slog.LevelError msg attrs]).

(** [sqsClient.SendMessage].  A call that fails is taken as not
    enqueued; the service may have taken the message all the same,
    which the theorems on the handler leave open: none of them says
    what the queue holds after a call that failed. *)
Definition SendMessage (w : World) (input : SendMessageInput)
  : World * option error :=
  (mkWorld (queueURL w) (random_uuid w) (fault w) (calls w ++ [input])
           (match fault w with
            | Some _ => queue w
            | None => queue w ++ [MessageBody input]
            end)
           (output w),
   fault w).

(** *** JSON in and out *)

(** [json.Unmarshal(data, &bodyMap)] for a nil [map[string]interface{}]:
    an object fills the map, [null] leaves it nil, any other value is a
    type error, and so is a number that does not fit a float64. *)
Definition Unmarshal (data : string) : gmap string Json.value * option error :=
  match Json.parse data with
  | None => (∅, Some SyntaxError)
  | Some (Json.Object members) =>
      (Json.map_of_members members,
       if Json.numbers_fit (Json.Object members) then None
       else Some (UnmarshalTypeError "number"))
  | Some Json.Null => (∅, None)
  | Some v => (∅, Some (UnmarshalTypeError (Json.kind_of v)))
  end.

(** The type assertion [bodyMap[key].(string)] with its [ok]. *)
Definition string_field (bodyMap : gmap string Json.value) (key : string)
  : option string :=
  match bodyMap !! key with
  | Some (Json.Str s) => Some s
  | _ => None
  end.

(** [json.Marshal(logEvent)] *)
Definition Marshal (ev : LogEvent) : string :=
  "{" ++ quoted "tenant_id" ++ ":" ++ Json.quote (TenantID ev) ++
  "," ++ quoted "log_id" ++ ":" ++ Json.quote (LogID ev) ++
  "," ++ quoted "original_text" ++ ":" ++ Json.quote (OriginalText ev) ++
  "," ++ quoted "source" ++ ":" ++ Json.quote (Source ev) ++ "}".

(** [json.Marshal] of the map of the accepted response: keys in
    sorted order. *)
Definition accepted_body (ev : LogEvent) : string :=
  "{" ++ quoted "log_id" ++ ":" ++ Json.quote (LogID ev) ++
  "," ++ quoted "message" ++ ":" ++ quoted "Processing queued" ++
  "," ++ quoted "status" ++ ":" ++ quoted "accepted" ++
  "," ++ quoted "tenant_id" ++ ":" ++ Json.quote (TenantID ev) ++ "}".

(** The body [{"error":"<reason>"}] of the source's raw literals. *)
Definition error_body (reason : string) : string :=
  "{" ++ quoted "error" ++ ":" ++ quoted reason ++ "}".

Definition error_response (code : Z) (reason : string)
  : APIGatewayV2HTTPResponse :=
  mkResponse code ∅ (error_body reason).

(** *** handler *)

(** Normalize headers (case-insensitive): the loop over
    [request.Headers]. *)
Definition normalize (hs : list (string * string)) : gmap string string :=
  fold_left (fun headers kv => <[ToLower (fst kv) := snd kv]> headers) hs ∅.

(** Reading a Go map: the zero value for a missing key. *)
Definition get (headers : gmap string string) (key : string) : string :=
  default "" (headers !! key).

(** Parse based on Content-Type: the event, or the response of an
    early return. *)
Definition parse_request (w : World) (request : APIGatewayV2HTTPRequest)
  : LogEvent + APIGatewayV2HTTPResponse :=
  let headers := normalize (Headers request) in
  let contentType := get headers "content-type" in
  let logID := random_uuid w in
  if Contains contentType "application/json" then
    let '(bodyMap, err) := Unmarshal (Body request) in
    match err with
    | Some _ => inr (error_response 400 "Invalid JSON")
    | None =>
        let tenantID := default "" (string_field bodyMap "tenant_id") in
        let originalText := default "" (string_field bodyMap "text") in
        let logID := default logID (string_field bodyMap "log_id") in
        inl (mkLogEvent tenantID logID originalText "json_upload")
    end
  else if Contains contentType "text/plain" then
    inl (mkLogEvent (get headers "x-tenant-id") logID (Body request) "text_upload")
  else inr (error_response 400 "Unsupported Content-Type").

Definition handler (w : World) (request : APIGatewayV2HTTPRequest)
  : World * (APIGatewayV2HTTPResponse * option error) :=
  match parse_request w request with
  | inr response => (w, (response, None))
  | inl logEvent =>
      (* Validate tenant_id *)
      if String.eqb (TenantID logEvent) "" then
        (w, (error_response 400 "Missing tenant_id", None))
      (* Validate text content *)
      else if String.eqb (OriginalText logEvent) "" then
        (w, (error_response 400 "Missing text content", None))
      else
        (* Publish to SQS *)
        let payload := Marshal logEvent in
        let '(w, err) :=
          SendMessage w (mkSendMessageInput payload (queueURL w)) in
        match err with
        | Some e =>
            let w := slog_Error w "Failed to enqueue message"
                       [("error", Slog.ErrorValue e)] in
            (w, (error_response 500 "Internal server error", None))
        | None =>
            (* Return 202 Accepted immediately (non-blocking) *)
            (w, (mkResponse 202 {["Content-Type" := "application/json"]}
                   (accepted_body logEvent),
                 None))
        end
  end.

End Ingest.

(** * The statements of the specification, in its own words *)

Module Spec.
Import GoStrings.

(** ** Batch Processor *)

(** The failure entry a message contributes: its own identifier when
    its processing returned an error, nothing otherwise. *)
Definition own_failure (message : Worker.SQSMessage) (err : option error)
  : list Worker.SQSBatchItemFailure :=
  match err with
  | Some _ => [Worker.mkSQSBatchItemFailure (Worker.MessageId message)]
  | None => []
  end.

(** ** Normalizer *)

Import Ingest.

(** The value of header [name] (a lower-case name) of a request whose
    header map is visited in the order [hs]: the value of the last
    entry whose name is [name] up to letter case, the empty string
    when there is none. *)
Inductive header_value (hs : list (string * string)) (name : string)
  : string → Prop :=
| header_missing :
    (∀ k v, (k, v) ∈ hs → ToLower k ≠ name) →
    header_value hs name ""
| header_present before k v after :
    hs = (before ++ (k, v) :: after)%list →
    ToLower k = name →
    (∀ k' v', (k', v') ∈ after → ToLower k' ≠ name) →
    header_value hs name v.

Definition content_type (request : APIGatewayV2HTTPRequest) : string :=
  get (normalize (Headers request)) "content-type".

Definition is_json (request : APIGatewayV2HTTPRequest) : bool :=
  Contains (content_type request) "application/json".

Definition is_text (request : APIGatewayV2HTTPRequest) : bool :=
  Contains (content_type request) "text/plain".

Definition failed (err : option error) : bool :=
  match err with Some _ => true | None => false end.

(** [tenant_id] and [original_text] after normalization. *)
Definition tenant_id_of (request : APIGatewayV2HTTPRequest) : string :=
  if is_json request
  then default "" (string_field (Unmarshal (Body request)).1 "tenant_id")
  else get (normalize (Headers request)) "x-tenant-id".

Definition original_text_of (request : APIGatewayV2HTTPRequest) : string :=
  if is_json request
  then default "" (string_field (Unmarshal (Body request)).1 "text")
  else Body request.

(** The validation checks in the order of the specification; the
    reason of the first one that fails. *)
Definition rejection (request : APIGatewayV2HTTPRequest) : option string :=
  (* (1) unsupported content type *)
  if negb (is_json request) && negb (is_text request)
  then Some "Unsupported Content-Type"
  (* (2) malformed JSON body (JSON path only) *)
  else if is_json request && failed (Unmarshal (Body request)).2
  then Some "Invalid JSON"
  (* (3) empty/missing tenant_id *)
  else if String.eqb (tenant_id_of request) ""
  then Some "Missing tenant_id"
  (* (4) empty/missing original_text *)
  else if String.eqb (original_text_of request) ""
  then Some "Missing text content"
  else None.



(** The member of a JSON object that a key denotes: the last one of
    that name. *)
Fixpoint last_member (key : string) (members : list (string * Json.value))
  : option Json.value :=
  match members with
  | [] => None
  | (k, v) :: rest =>
      match last_member key rest with
      | Some v' => Some v'
      | None => if String.eqb k key then Some v else None
      end
  end.

(** A field is extracted only when present as a JSON string. *)
Definition string_member (key : string) (members : list (string * Json.value))
  : option string :=
  match last_member key members with
  | Some (Json.Str s) => Some s
  | _ => None
  end.

End Spec.

(** * Sample inputs *)

Module Samples.
Import GoStrings.

(** A JSON object of string members, written out. *)
Fixpoint members_text (ms : list (string * string)) : string :=
  match ms with
  | [] => ""
  | [(k, v)] => quoted k ++ ":" ++ quoted v
  | (k, v) :: rest => quoted k ++ ":" ++ quoted v ++ "," ++ members_text rest
  end.

Definition object_text (ms : list (string * string)) : string :=
  "{" ++ members_text ms ++ "}".

(** A queue message as the ingest service writes it. *)
Definition message_acme : Worker.SQSMessage :=
  Worker.mkSQSMessage "msg-1"
    (object_text [("tenant_id", "acme_corp"); ("log_id", "101");
                  ("original_text", "User 800-555-0199 logged in from 192.168.1.1");
                  ("source", "json_upload")]).

Definition message_beta : Worker.SQSMessage :=
  Worker.mkSQSMessage "msg-2"
    (object_text [("tenant_id", "beta_inc"); ("log_id", "7");
                  ("original_text", "mail a@b.com"); ("source", "text_upload")]).

(** A payload that is not JSON. *)
Definition message_poison : Worker.SQSMessage :=
  Worker.mkSQSMessage "msg-3" "not json".

(** 2026-11-02T20:06:40Z, an empty table, the second write fails. *)
Definition worker_world : Worker.World :=
  Worker.mkWorld ∅ 1793650000000000000
    [None; Some (OperationError "ProvisionedThroughputExceededException")] [].

End Samples.

Module IngestSamples.
Import GoStrings Ingest.

Definition world : World :=
  mkWorld "https://sqs.us-east-1.amazonaws.com/1/ingest-queue"
          "7f9c24e8-3b1a-4f6e-9d2c-5a8b0c1d2e3f" None [] [] [].

(** The JSON submission of the scenario. *)
Definition body_acme : string :=
  Samples.object_text
    [("tenant_id", "acme_corp"); ("log_id", "101");
     ("text", "User 800-555-0199 logged in from 192.168.1.1")].

Definition request_json : APIGatewayV2HTTPRequest :=
  mkRequest [("Content-Type", "application/json")] body_acme.

(** The same submission with the media type in another letter case. *)
Definition request_mixed_case : APIGatewayV2HTTPRequest :=
  mkRequest [("Content-Type", "Application/JSON")] body_acme.

(** A body that is a JSON text, an empty array, but not an object. *)
Definition request_array : APIGatewayV2HTTPRequest :=
  mkRequest [("content-type", "application/json")] "[]".


(** A text upload without the tenant header. *)
Definition request_no_tenant : APIGatewayV2HTTPRequest :=
  mkRequest [("Content-Type", "text/plain")] "raw log dump".

(** [tenant_id] of the wrong type. *)
Definition request_numeric_tenant : APIGatewayV2HTTPRequest :=
  mkRequest [("Content-Type", "application/json; charset=utf-8")]
    ("{" ++ quoted "tenant_id" ++ ":42," ++ quoted "text" ++ ":" ++
     quoted "hello" ++ "}").

End IngestSamples.

(** * The deployment of [main.tf] *)

Module Deployment.

(** [aws_lambda_event_source_mapping.sqs_trigger]: messages per batch. *)
Definition batch_size : nat := 5.

(** [aws_lambda_function.worker_lambda]: timeout, in seconds. *)
Definition worker_timeout : Z := 60.

(** [aws_sqs_queue.ingest_queue]: visibility timeout, in seconds. *)
Definition visibility_timeout_seconds : Z := 900.

End Deployment.

(** * Predicates on texts *)

Module Text.

(** Every byte of the text satisfies [p]. *)
Fixpoint every (p : Ascii.ascii → bool) (s : string) : bool :=
  match s with
  | EmptyString => true
  | String c s' => p c && every p s'
  end.

(** Neither a digit nor an at sign. *)
Definition plain (c : Ascii.ascii) : bool :=
  negb (GoStrings.is_digit c) && negb (Worker.at_sign c).

(** Not an at sign. *)
Definition no_at (c : Ascii.ascii) : bool := negb (Worker.at_sign c).

(** A byte of the ASCII range. *)
Definition ascii (c : Ascii.ascii) : bool := (GoStrings.byte_of c <? 128)%N.

End Text.

Module Shapes.
Import GoStrings.

(** [n] digits. *)
Definition digits (n : nat) (s : string) : bool :=
  Nat.eqb (String.length s) n && Text.every is_digit s.

(** Nothing, a dash or a dot. *)
Definition separator (s : string) : bool :=
  String.eqb s "" || String.eqb s "-" || String.eqb s ".".

(** The last byte of [s], or [prev] when [s] is empty. *)
Fixpoint last_byte (prev : option ascii) (s : string) : option ascii :=
  match s with
  | EmptyString => prev
  | String c s' => last_byte (Some c) s'
  end.

(** The number of digits of a text. *)
Fixpoint count_digits (s : string) : nat :=
  match s with
  | EmptyString => O
  | String c s' => (if is_digit c then 1 else 0) + count_digits s'
  end.

(** A text that is not empty, of bytes of the class [p]. *)
Definition run (p : ascii → bool) (s : string) : bool :=
  negb (String.eqb s "") && Text.every p s.

(** The text is empty or its last byte is outside the class [p]. *)
Definition ends_outside (p : ascii → bool) (s : string) : bool :=
  match last_byte None s with Some c => negb (p c) | None => true end.

(** The text is empty or its first byte is outside the class [p]. *)
Definition starts_outside (p : ascii → bool) (s : string) : bool :=
  match s with String c _ => negb (p c) | EmptyString => true end.

End Shapes.

(** * From the queue to the worker *)

Module Pipeline.

(** A Go string made well-formed UTF-8 the way [encoding/json] does when
    it writes and reads it: each byte that is not part of a well-formed
    rune becomes U+FFFD.  [copy] counts the continuation bytes of the
    current rune still to be copied. *)
Fixpoint to_valid_from (copy : nat) (s : string) : string :=
  match s with
  | EmptyString => ""
  | String c s1 =>
      match copy with
      | S k => String c (to_valid_from k s1)
      | O =>
          match Utf8.rune_len s with
          | O => Utf8.encode Utf8.RuneError ++ to_valid_from O s1
          | S n => String c (to_valid_from n s1)
          end
      end
  end.

Definition to_valid (s : string) : string := to_valid_from O s.

(** The event of the ingest service as the worker reads it. *)
Definition arrives (ev : Ingest.LogEvent) : Worker.LogEvent :=
  Worker.mkLogEvent (to_valid (Ingest.TenantID ev)) (to_valid (Ingest.LogID ev))
    (to_valid (Ingest.OriginalText ev)) (to_valid (Ingest.Source ev)).

(** U+2028 and U+2029 are the bytes E2 80 A8 and E2 80 A9. *)
Definition line_separator (c c1 c2 : ascii) : bool :=
  Ascii.eqb c "226" && Ascii.eqb c1 "128" &&
  (Ascii.eqb c2 "168" || Ascii.eqb c2 "169").

End Pipeline.

(** * Messages and the store *)

Module Store.

(** The payload of the message decodes to an event. *)
Definition decodes (m : Worker.SQSMessage) : bool :=
  negb (Spec.failed
          (Worker.Unmarshal (Worker.Body m) Worker.zero_LogEvent).2).

(** Two worlds with the same table, the same clock and the same
    [PutItem] calls to come: they differ in the log at most. *)
Definition same (w w' : Worker.World) : Prop :=
  Worker.table w = Worker.table w' ∧
  Worker.now w = Worker.now w' ∧
  Worker.faults w = Worker.faults w'.

End Store.

(** * The log of the worker *)

Module Logs.

Definition is_error (r : Slog.Record) : bool :=
  match Slog.level r with Slog.LevelError => true | Slog.LevelInfo => false end.

(** The records written at the level of errors. *)
Definition errors (out : list Slog.Record) : list Slog.Record :=
  List.filter is_error out.

(** The record that the handler writes for a failed message. *)
Definition failure_record (f : Worker.SQSBatchItemFailure) (e : error)
  : Slog.Record :=
  Slog.mkRecord Slog.LevelError "Processing failed"
    [("message_id", Slog.StringValue (Worker.ItemIdentifier f));
     ("error", Slog.ErrorValue e)].

End Logs.

(** * Theorems *)

(** * Properties of the worker *)

Section WorkerProperties.
Import GoStrings Worker.

(** ** Redaction *)

(** C2: [redactPII] is the phone, the SSN and the email substitution
    applied in this order, and it meets the test vectors of the
    specification: the phone number and the SSN and the address are
    replaced by the marker, a text without PII is returned as it is,
    and in the log line of the scenario the phone number is replaced
    while the IP address stays. *)
Theorem redactPII_test_vectors :
  (∀ text,
     redactPII text =
     Regexp.ReplaceAllString emailPattern
       (Regexp.ReplaceAllString ssnPattern
          (Regexp.ReplaceAllString phonePattern text "[REDACTED]")
          "[REDACTED]")
       "[REDACTED]") ∧
  redactPII "call 800-555-0199" = "call [REDACTED]" ∧
  Contains (redactPII "call 800-555-0199") "[REDACTED]" = true ∧
  Contains (redactPII "call 800-555-0199") "800-555-0199" = false ∧
  redactPII "ssn 123-45-6789" = "ssn [REDACTED]" ∧
  redactPII "a@b.com" = "[REDACTED]" ∧
  redactPII "no pii here" = "no pii here" ∧
  redactPII "User 800-555-0199 logged in from 192.168.1.1" =
    "User [REDACTED] logged in from 192.168.1.1" ∧
  Contains (redactPII "User 800-555-0199 logged in from 192.168.1.1")
           "192.168.1.1" = true.
Proof.
  split; [reflexivity|].
  repeat split; vm_compute; reflexivity.
Qed.

(** ** The simulated cost *)

Lemma wrap64_small z :
  (GoTime.min_int64 <= z <= GoTime.max_int64)%Z → GoTime.wrap64 z = z.
Proof.
  unfold GoTime.wrap64, GoTime.min_int64, GoTime.max_int64. intros Hz.
  rewrite Z.mod_small; lia.
Qed.

(** Whatever the length, the worker never sleeps longer than the cap. *)
Lemma sleepDuration_le_cap n : (sleepDuration n <= 5 * GoTime.Second)%Z.
Proof.
  unfold sleepDuration.
  destruct (Z.gtb_spec (GoTime.mul64 (GoTime.mul64 n 50) GoTime.Millisecond)
                       (5 * GoTime.Second)); lia.
Qed.

Lemma sleepDuration_in_range n :
  (0 <= n)%Z → (n * 50 * GoTime.Millisecond <= GoTime.max_int64)%Z →
  sleepDuration n = Z.min (n * (50 * GoTime.Millisecond)) (5 * GoTime.Second).
Proof.
  unfold sleepDuration, GoTime.mul64, GoTime.Millisecond, GoTime.Second,
    GoTime.max_int64.
  intros H0 Hmax.
  rewrite (wrap64_small (n * 50)), (wrap64_small (n * 50 * 1000000));
    unfold GoTime.min_int64, GoTime.max_int64; try lia.
  destruct (Z.gtb_spec (n * 50 * 1000000) (5 * 1000000000)); lia.
Qed.

(** Beyond that range the product wraps around: at this length it is
    negative, and the worker does not sleep at all. *)
Remark sleepDuration_wraps :
  sleepDuration 184467440738 = (-9223372036809551616)%Z.
Proof. reflexivity. Qed.

(** C9: for a message that decodes to [event], the delay is the length
    of the text times 50 ms, capped at 5 s, it never exceeds the cap,
    and this is the time by which processing advances the clock.  The
    product is computed on int64: the premise keeps it in range, which
    holds for every text up to 184 467 440 737 bytes. *)
Theorem sleepDuration_is_capped_product w message event :
  Unmarshal (Body message) zero_LogEvent = (event, None) →
  (len (OriginalText event) * 50 * GoTime.Millisecond <= GoTime.max_int64)%Z →
  let delay :=
    Z.min (len (OriginalText event) * (50 * GoTime.Millisecond))
          (5 * GoTime.Second) in
  sleepDuration (len (OriginalText event)) = delay ∧
  (sleepDuration (len (OriginalText event)) <= 5 * GoTime.Second)%Z ∧
  now (processMessage w message).1 = (now w + delay)%Z.
Proof.
  intros Hdec Hrange delay.
  assert (Hlen : (0 <= len (OriginalText event))%Z) by (unfold len; lia).
  assert (Hd : sleepDuration (len (OriginalText event)) = delay)
    by (apply sleepDuration_in_range; assumption).
  split; [exact Hd|]. split; [apply sleepDuration_le_cap|].
  unfold processMessage. rewrite Hdec. cbn [slog Sleep now].
  unfold PutItem. cbn [table faults now output].
  destruct (DynamoDB.PutItem _ _ _) as [t [e|]]; cbn [fst now slog];
    unfold Sleep, slog; cbn [now]; rewrite Hd;
    unfold delay, GoTime.Millisecond, GoTime.Second; lia.
Qed.

Lemma sleepDuration_is_capped_product_witness :
  Unmarshal (Body Samples.message_acme) zero_LogEvent =
    (mkLogEvent "acme_corp" "101"
       "User 800-555-0199 logged in from 192.168.1.1" "json_upload", None) ∧
  (44 * 50 * GoTime.Millisecond <= GoTime.max_int64)%Z ∧
  sleepDuration 44 = 2200000000%Z ∧
  now (processMessage Samples.worker_world Samples.message_acme).1 =
    1793650002200000000%Z.
Proof.
  split; [vm_compute; reflexivity|].
  split; [vm_compute; discriminate|].
  pose proof (sleepDuration_is_capped_product Samples.worker_world
                Samples.message_acme
                (mkLogEvent "acme_corp" "101"
                   "User 800-555-0199 logged in from 192.168.1.1" "json_upload"))
    as H.
  destruct H as (H1 & _ & H3); [vm_compute; reflexivity | vm_compute; discriminate |].
  split; [exact H1 | exact H3].
Defined.

End WorkerProperties.

Section RecordWriter.
Import Worker.

(** ** The Record Writer *)

Lemma primary_key_item_of event modifiedData t :
  DynamoDB.primary_key (item_of event modifiedData t) =
  Some (TenantID event, LogID event).
Proof. reflexivity. Qed.

(** ** processMessage *)

Lemma processMessage_decode_error w message event e :
  Unmarshal (Body message) zero_LogEvent = (event, Some e) →
  processMessage w message = (w, Some e).
Proof. intros H. unfold processMessage. by rewrite H. Qed.

(** What a message that decodes does to the world. *)
Lemma processMessage_decoded w message event :
  Unmarshal (Body message) zero_LogEvent = (event, None) →
  let w1 :=
    Sleep (slog Slog.LevelInfo w "Processing message"
             [("tenant_id", Slog.StringValue (TenantID event));
              ("log_id", Slog.StringValue (LogID event));
              ("text_length", Slog.IntValue (len (OriginalText event)))])
          (sleepDuration (len (OriginalText event))) in
  let item := item_of event (redactPII (OriginalText event)) (now w1) in
  processMessage w message =
  match hd None (faults w) with
  | Some e => (mkWorld (table w) (now w1) (tail (faults w)) (output w1), Some e)
  | None =>
      (slog Slog.LevelInfo
         (mkWorld (<[(TenantID event, LogID event) := item]> (table w))
                  (now w1) (tail (faults w)) (output w1))
         "Successfully processed"
         [("tenant_id", Slog.StringValue (TenantID event));
          ("log_id", Slog.StringValue (LogID event))],
       None)
  end.
Proof.
  intros H w1 item. unfold processMessage. rewrite H.
  fold w1. fold item. unfold PutItem.
  replace (faults w1) with (faults w) by reflexivity.
  replace (table w1) with (table w) by reflexivity.
  destruct (faults w) as [|[e|] fs]; cbn [hd tail]; unfold DynamoDB.PutItem;
    try (unfold item at 1; rewrite primary_key_item_of); reflexivity.
Qed.

(** C8: a message is processed successfully only if it decodes to an
    event, and then the record stored under the event's
    [(tenant_id, log_id)] carries the event's [tenant_id], [log_id],
    [original_text] and [source] unchanged, and besides them exactly
    the three derived attributes [modified_data], [processed_at] and
    [status]; no other record of the table is touched. *)
Theorem processMessage_preserves_event w message w' :
  processMessage w message = (w', None) →
  ∃ event (item : DynamoDB.Item),
    Unmarshal (Body message) zero_LogEvent = (event, None) ∧
    table w' !! (TenantID event, LogID event) = Some item ∧
    item !! "tenant_id" = Some (TenantID event) ∧
    item !! "log_id" = Some (LogID event) ∧
    item !! "original_text" = Some (OriginalText event) ∧
    item !! "source" = Some (Source event) ∧
    item !! "modified_data" = Some (redactPII (OriginalText event)) ∧
    item !! "processed_at" = Some (Clock.RFC3339 (now w')) ∧
    item !! "status" = Some "PROCESSED" ∧
    dom item =
      {["tenant_id"; "log_id"; "original_text"; "source"]} ∪
      {["modified_data"; "processed_at"; "status"]} ∧
    ∀ k, k ≠ (TenantID event, LogID event) → table w' !! k = table w !! k.
Proof.
  intros Hok.
  destruct (Unmarshal (Body message) zero_LogEvent) as [event [e|]] eqn:Hdec.
  { rewrite (processMessage_decode_error _ _ _ _ Hdec) in Hok. discriminate. }
  rewrite (processMessage_decoded _ _ _ Hdec) in Hok.
  destruct (hd None (faults w)) as [e|]; [discriminate|].
  injection Hok as <-. cbn [table now slog Sleep].
  eexists event, _. split; [reflexivity|].
  split; [apply lookup_insert_eq|].
  do 7 (split; [reflexivity|]).
  split.
  - unfold item_of. rewrite !dom_insert_L, dom_empty_L. set_solver.
  - intros k Hk. by apply lookup_insert_ne.
Qed.

Lemma processMessage_preserves_event_witness :
  let w' := (processMessage Samples.worker_world Samples.message_acme).1 in
  processMessage Samples.worker_world Samples.message_acme = (w', None) ∧
  ∃ item : DynamoDB.Item,
    table w' !! ("acme_corp", "101") = Some item ∧
    item !! "original_text" =
      Some "User 800-555-0199 logged in from 192.168.1.1" ∧
    item !! "modified_data" =
      Some "User [REDACTED] logged in from 192.168.1.1" ∧
    item !! "processed_at" = Some "2026-11-02T20:06:42Z".
Proof.
  intros w'.
  assert (Hrun : processMessage Samples.worker_world Samples.message_acme
                 = (w', None)) by (vm_compute; reflexivity).
  split; [exact Hrun|].
  destruct (processMessage_preserves_event _ _ _ Hrun)
    as (event & item & Hdec & Hitem & _ & _ & Ho & _ & Hm & Hp & _).
  assert (Hev : event = mkLogEvent "acme_corp" "101"
                  "User 800-555-0199 logged in from 192.168.1.1" "json_upload").
  { assert (Hc : Unmarshal (Body Samples.message_acme) zero_LogEvent =
                 (mkLogEvent "acme_corp" "101"
                    "User 800-555-0199 logged in from 192.168.1.1"
                    "json_upload", None)) by (vm_compute; reflexivity).
    rewrite Hc in Hdec. by injection Hdec. }
  subst event. exists item. split; [exact Hitem|].
  split; [exact Ho|]. split; [exact Hm|exact Hp].
Defined.

(** A message delivered again overwrites its record: after the second
    delivery the table holds what it held after the first, except for
    [processed_at] of that record. *)
Lemma redelivery_overwrites w message w1 w2 :
  processMessage w message = (w1, None) →
  processMessage w1 message = (w2, None) →
  ∃ event,
    Unmarshal (Body message) zero_LogEvent = (event, None) ∧
    table w1 =
      <[(TenantID event, LogID event) :=
          item_of event (redactPII (OriginalText event)) (now w1)]> (table w) ∧
    table w2 =
      <[(TenantID event, LogID event) :=
          item_of event (redactPII (OriginalText event)) (now w2)]> (table w) ∧
    size (table w2) = size (table w1).
Proof.
  intros H1 H2.
  destruct (Unmarshal (Body message) zero_LogEvent) as [event [e|]] eqn:Hdec.
  { rewrite (processMessage_decode_error _ _ _ _ Hdec) in H1. discriminate. }
  rewrite (processMessage_decoded _ _ _ Hdec) in H1.
  rewrite (processMessage_decoded _ _ _ Hdec) in H2.
  destruct (hd None (faults w)); [discriminate|].
  destruct (hd None (faults w1)); [discriminate|].
  injection H2 as <-. injection H1 as <-. cbn [table now slog Sleep].
  exists event. split; [reflexivity|]. split; [reflexivity|].
  rewrite insert_insert_eq. split; [reflexivity|].
  destruct (table w !! (TenantID event, LogID event)) eqn:Hk.
  - by rewrite !map_size_insert_Some.
  - by rewrite !map_size_insert_None.
Qed.

(** A write that is served puts the item under its primary key. *)
Lemma PutItem_served w (item : DynamoDB.Item) (key : string * string) :
  hd None (faults w) = None →
  DynamoDB.primary_key item = Some key →
  PutItem w item =
  (mkWorld (<[key := item]> (table w)) (now w) (tail (faults w)) (output w), None).
Proof.
  intros Hserved Hpk. unfold PutItem, DynamoDB.PutItem.
  change (match faults w with f :: _ => f | [] => None end)
    with (hd None (faults w)).
  by rewrite Hserved, Hpk.
Qed.

(** Two records of one event differ in [processed_at] at most. *)
Lemma item_of_attr event modifiedData (t1 t2 : Z) (attr : string) :
  attr ≠ "processed_at" →
  item_of event modifiedData t2 !! attr = item_of event modifiedData t1 !! attr.
Proof.
  intros Hattr. unfold item_of.
  repeat match goal with
         | |- context [<[?k := _]> _ !! attr] =>
             destruct (decide (k = attr)) as [<-|?];
             [first [congruence | by rewrite !lookup_insert_eq]
             |rewrite !(lookup_insert_ne _ k attr) by done]
         end.
  reflexivity.
Qed.

(** C6: the write of [processMessage] is an unconditional upsert under
    [(tenant_id, log_id)].  Whatever the table holds, a served write
    puts the record of the event under its key and touches no other
    key.  Writing the same record a second time leaves the table as the
    first write left it: one record under the key, as many records as
    before.  A message delivered again is written under the key of its
    first delivery: the table has the same keys and as many records,
    every other record is what it was, and the record differs from the
    first one in [processed_at] at most. *)
Theorem PutItem_upsert_idempotent :
  (∀ w message event,
     let r := processMessage w message in
     let key := (TenantID event, LogID event) in
     let item := item_of event (redactPII (OriginalText event)) (now r.1) in
     Unmarshal (Body message) zero_LogEvent = (event, None) →
     hd None (faults w) = None →
     r.2 = None ∧
     table r.1 = <[key := item]> (table w) ∧
     table r.1 !! key = Some item ∧
     dom (table r.1) = {[key]} ∪ dom (table w) ∧
     (∀ k, k ≠ key → table r.1 !! k = table w !! k)) ∧
  (∀ w event modifiedData at_time,
     let item := item_of event modifiedData at_time in
     let key := (TenantID event, LogID event) in
     let once := PutItem w item in
     let twice := PutItem once.1 item in
     hd None (faults w) = None →
     hd None (faults once.1) = None →
     once.2 = None ∧ twice.2 = None ∧
     table twice.1 = table once.1 ∧
     table once.1 !! key = Some item ∧
     size (table twice.1) = size (table once.1) ∧
     dom (table once.1) = {[key]} ∪ dom (table w) ∧
     (∀ k, k ≠ key →
        table once.1 !! k = table w !! k ∧ table twice.1 !! k = table w !! k)) ∧
  (∀ w message event,
     let r1 := processMessage w message in
     let r2 := processMessage r1.1 message in
     let key := (TenantID event, LogID event) in
     Unmarshal (Body message) zero_LogEvent = (event, None) →
     hd None (faults w) = None →
     hd None (faults r1.1) = None →
     r1.2 = None ∧ r2.2 = None ∧
     dom (table r2.1) = dom (table r1.1) ∧
     size (table r2.1) = size (table r1.1) ∧
     (∀ k, k ≠ key → table r2.1 !! k = table r1.1 !! k) ∧
     ∃ item1 item2,
       table r1.1 !! key = Some item1 ∧
       table r2.1 !! key = Some item2 ∧
       (∀ attr, attr ≠ "processed_at" → item2 !! attr = item1 !! attr) ∧
       (now r2.1 = now r1.1 → table r2.1 = table r1.1)).
Proof.
  assert (Hwrite : ∀ w message event,
     Unmarshal (Body message) zero_LogEvent = (event, None) →
     hd None (faults w) = None →
     (processMessage w message).2 = None ∧
     table (processMessage w message).1 =
       <[(TenantID event, LogID event) :=
           item_of event (redactPII (OriginalText event))
             (now (processMessage w message).1)]> (table w)).
  { intros w message event Hdec Hserved.
    rewrite (processMessage_decoded _ _ _ Hdec), Hserved.
    by cbn [fst snd slog table now]. }
  split; [|split].
  - intros w message event r key item Hdec Hserved.
    destruct (Hwrite w message event Hdec Hserved) as [Hok Htable].
    fold r key item in Hok, Htable.
    split; [exact Hok|]. split; [exact Htable|]. rewrite Htable.
    split; [apply lookup_insert_eq|]. split; [apply dom_insert_L|].
    intros k Hk. by apply lookup_insert_ne.
  - intros w event modifiedData at_time item key once twice.
    assert (Hpk : DynamoDB.primary_key item = Some key)
      by apply primary_key_item_of.
    intros Hserved1 Hserved2.
    unfold twice in *. unfold once in *.
    rewrite (PutItem_served _ _ _ Hserved1 Hpk) in *. cbn [fst snd] in *.
    rewrite (PutItem_served _ _ _ Hserved2 Hpk). cbn [fst snd table].
    rewrite insert_insert_eq.
    repeat split; try done.
    + apply lookup_insert_eq.
    + apply dom_insert_L.
    + by apply lookup_insert_ne.
    + by apply lookup_insert_ne.
  - intros w message event r1 r2 key Hdec Hserved1 Hserved2.
    destruct (Hwrite w message event Hdec Hserved1) as [Hok1 Htable1].
    destruct (Hwrite r1.1 message event Hdec Hserved2) as [Hok2 Htable2].
    fold r1 in Hok1, Htable1. fold r2 in Hok2, Htable2. fold key in Htable1, Htable2.
    split; [exact Hok1|]. split; [exact Hok2|].
    rewrite Htable2, Htable1, insert_insert_eq.
    split; [by rewrite !dom_insert_L|].
    split.
    { destruct (table w !! key) eqn:Hk.
      - by rewrite !map_size_insert_Some.
      - by rewrite !map_size_insert_None. }
    split.
    { intros k Hk. by rewrite !lookup_insert_ne. }
    eexists _, _. split; [apply lookup_insert_eq|].
    split; [apply lookup_insert_eq|].
    split; [intros attr Hattr; by apply item_of_attr|].
    intros Hnow. by rewrite Hnow.
Qed.

Lemma PutItem_upsert_idempotent_witness :
  let event := mkLogEvent "acme_corp" "101" "call 800-555-0199" "json_upload" in
  let other := mkLogEvent "beta_inc" "101" "hello" "text_upload" in
  let w := mkWorld {[("beta_inc", "101") := item_of other "hello" 0]}
             1793650000000000000 [] [] in
  let item := item_of event "call [REDACTED]" 1793650000000000000 in
  let once := (PutItem w item).1 in
  let twice := (PutItem once item).1 in
  table twice = table once ∧ size (table twice) = 2 ∧
  table once !! ("beta_inc", "101") = table w !! ("beta_inc", "101").
Proof.
  intros event other w item once twice.
  destruct PutItem_upsert_idempotent as (_ & Htwice & _).
  destruct (Htwice w event "call [REDACTED]" 1793650000000000000%Z)
    as (_ & _ & Hsame & _ & Hsize & _ & Hother); [reflexivity|reflexivity|].
  split; [exact Hsame|].
  split; [fold item once twice in Hsize; rewrite Hsize; vm_compute; reflexivity|].
  apply (Hother ("beta_inc", "101")). discriminate.
Defined.


End RecordWriter.

Section BatchProcessor.
Import Worker Spec.
Local Open Scope list_scope.

(** ** The batch handler *)

Lemma handler_loop_failures w acc records :
  handler_loop w acc records =
  ((handler_loop w [] records).1, acc ++ (handler_loop w [] records).2).
Proof.
  revert w acc. induction records as [|m rest IH]; intros w acc.
  - cbn. by rewrite app_nil_r.
  - cbn [handler_loop]. destruct (processMessage w m) as [w1 [e|]].
    + rewrite IH. rewrite (IH _ ([] ++ _)). cbn [fst snd].
      by rewrite <- app_assoc.
    + apply IH.
Qed.

Lemma handler_loop_app w acc l1 l2 :
  handler_loop w acc (l1 ++ l2) =
  handler_loop (handler_loop w acc l1).1 (handler_loop w acc l1).2 l2.
Proof.
  revert w acc. induction l1 as [|m rest IH]; intros w acc; [reflexivity|].
  cbn [app handler_loop]. destruct (processMessage w m) as [w1 [e|]]; apply IH.
Qed.

Lemma handler_unfold w sqsEvent :
  handler w sqsEvent =
  ((handler_loop w [] (Records sqsEvent)).1,
   (mkSQSEventResponse (handler_loop w [] (Records sqsEvent)).2, None)).
Proof. unfold handler. by destruct (handler_loop w [] (Records sqsEvent)). Qed.

Lemma handler_single w message :
  (handler w (mkSQSEvent [message])).2 =
  (mkSQSEventResponse (own_failure message (processMessage w message).2), None).
Proof.
  unfold handler. cbn [Records handler_loop].
  destruct (processMessage w message) as [w1 [e|]]; reflexivity.
Qed.

(** A message fails exactly when its payload does not decode or the
    write of its record fails. *)
Lemma processMessage_error_iff w message :
  (processMessage w message).2 ≠ None ↔
  (Unmarshal (Body message) zero_LogEvent).2 ≠ None ∨
  ((Unmarshal (Body message) zero_LogEvent).2 = None ∧ hd None (faults w) ≠ None).
Proof.
  destruct (Unmarshal (Body message) zero_LogEvent) as [event [e|]] eqn:Hdec.
  - rewrite (processMessage_decode_error _ _ _ _ Hdec). cbn. split; [by left|done].
  - rewrite (processMessage_decoded _ _ _ Hdec).
    destruct (hd None (faults w)) as [e|]; cbn; split; try done.
    + intros _. by right.
    + by intros [?|[_ ?]].
Qed.

Lemma slog_table lvl w msg attrs : table (slog lvl w msg attrs) = table w.
Proof. reflexivity. Qed.

Lemma slog_now lvl w msg attrs : now (slog lvl w msg attrs) = now w.
Proof. reflexivity. Qed.

(** One turn of the loop of the handler. *)
Lemma handler_loop_cons w m rest :
  handler_loop w [] (m :: rest) =
  let r := processMessage w m in
  let w1 := match r.2 with
            | Some e => slog Slog.LevelError r.1 "Processing failed"
                          [("message_id", Slog.StringValue (MessageId m));
                           ("error", Slog.ErrorValue e)]
            | None => r.1
            end in
  ((handler_loop w1 [] rest).1,
   Spec.own_failure m r.2 ++ (handler_loop w1 [] rest).2).
Proof.
  cbn [handler_loop]. destruct (processMessage w m) as [w1 [e|]]; cbn [fst snd].
  - by rewrite handler_loop_failures.
  - by destruct (handler_loop w1 [] rest).
Qed.

(** What one message does to the table: nothing, or the write of its
    own record. *)
Lemma processMessage_table w m :
  table (processMessage w m).1 = table w ∨
  ∃ event item,
    Unmarshal (Body m) zero_LogEvent = (event, None) ∧
    (processMessage w m).2 = None ∧
    table (processMessage w m).1 =
      <[(TenantID event, LogID event) := item]> (table w).
Proof.
  destruct (Unmarshal (Body m) zero_LogEvent) as [event [e|]] eqn:Hdec.
  - left. by rewrite (processMessage_decode_error _ _ _ _ Hdec).
  - rewrite (processMessage_decoded _ _ _ Hdec).
    destruct (hd None (faults w)); [by left|].
    right. by eexists event, _.
Qed.

(** A record that the table holds stays under its key through the
    loop. *)
Lemma handler_loop_keeps_key records : ∀ w key,
  is_Some (table w !! key) →
  is_Some (table (handler_loop w [] records).1 !! key).
Proof.
  induction records as [|m rest IH]; intros w key Hkey; [exact Hkey|].
  rewrite handler_loop_cons. cbn zeta. cbn [fst]. apply IH.
  assert (Hm : is_Some (table (processMessage w m).1 !! key)).
  { destruct (processMessage_table w m) as [->|(ev & it & _ & _ & ->)];
      [exact Hkey|].
    destruct (decide ((TenantID ev, LogID ev) = key)) as [<-|Hne].
    - rewrite lookup_insert_eq. by eexists.
    - by rewrite lookup_insert_ne. }
  by destruct (processMessage w m).2.
Qed.

(** The loop leaves alone what is stored under the key of none of its
    messages. *)
Lemma handler_loop_other_keys records : ∀ w key,
  (∀ m event, m ∈ records →
     Unmarshal (Body m) zero_LogEvent = (event, None) →
     (TenantID event, LogID event) ≠ key) →
  table (handler_loop w [] records).1 !! key = table w !! key.
Proof.
  induction records as [|m rest IH]; intros w key Hother; [reflexivity|].
  rewrite handler_loop_cons. cbn zeta. cbn [fst].
  rewrite IH.
  - assert (Hm : table (processMessage w m).1 !! key = table w !! key).
    { destruct (processMessage_table w m) as [->|(ev & it & Hdec & _ & ->)];
        [done|].
      apply lookup_insert_ne. apply (Hother m ev); [by left|exact Hdec]. }
    by destruct (processMessage w m).2.
  - intros m' ev Hin. apply Hother. by right.
Qed.

(** C1: the handler never returns an error, and a batch is handled
    message by message.  Around any message [m] the batch splits into
    the messages before it, [m] itself and the messages after it: [m]
    is processed by [processMessage] in the world that the messages
    before it left, and the messages after it are handled in the world
    that [processMessage] left (with the record of the failure in the
    log when [m] failed), whatever became of [m].  [m] contributes its
    own identifier to the failure list exactly when its processing
    fails (its payload does not decode or the write fails), and
    nothing otherwise.  A message that decodes and whose write is
    served is not reported and is persisted: its record is in the
    table when [processMessage] returns, its key is in the table at
    the end of the batch whatever the other messages did, and the
    record is this very one unless a later message of the batch
    decodes to the same key. *)
Theorem handler_partial_batch_failure :
  (∀ w sqsEvent, (handler w sqsEvent).2.2 = None) ∧
  (∀ w before m after,
     let r1 := handler w (mkSQSEvent before) in
     let p := processMessage r1.1 m in
     let w2 :=
       match p.2 with
       | Some e => slog Slog.LevelError p.1 "Processing failed"
                     [("message_id", Slog.StringValue (MessageId m));
                      ("error", Slog.ErrorValue e)]
       | None => p.1
       end in
     let r3 := handler w2 (mkSQSEvent after) in
     handler w (mkSQSEvent (before ++ m :: after)) =
     (r3.1,
      (mkSQSEventResponse
         (BatchItemFailures r1.2.1 ++
          own_failure m p.2 ++
          BatchItemFailures r3.2.1),
       None))) ∧
  (∀ w m,
     BatchItemFailures (handler w (mkSQSEvent [m])).2.1 =
       own_failure m (processMessage w m).2 ∧
     ((processMessage w m).2 ≠ None ↔
      (Unmarshal (Body m) zero_LogEvent).2 ≠ None ∨
      ((Unmarshal (Body m) zero_LogEvent).2 = None ∧
       hd None (faults w) ≠ None))) ∧
  (∀ w before m after event,
     let r1 := handler w (mkSQSEvent before) in
     let p := processMessage r1.1 m in
     let final := (handler w (mkSQSEvent (before ++ m :: after))).1 in
     let key := (TenantID event, LogID event) in
     let item := item_of event (redactPII (OriginalText event)) (now p.1) in
     Unmarshal (Body m) zero_LogEvent = (event, None) →
     hd None (faults r1.1) = None →
     p.2 = None ∧
     own_failure m p.2 = [] ∧
     table p.1 = <[key := item]> (table r1.1) ∧
     is_Some (table final !! key) ∧
     ((∀ m' event', m' ∈ after →
         Unmarshal (Body m') zero_LogEvent = (event', None) →
         (TenantID event', LogID event') ≠ key) →
      table final !! key = Some item)).
Proof.
  assert (Hsplit : ∀ w before m after,
     handler_loop w [] (before ++ m :: after) =
     let l1 := handler_loop w [] before in
     let p := processMessage l1.1 m in
     let w2 :=
       match p.2 with
       | Some e => slog Slog.LevelError p.1 "Processing failed"
                     [("message_id", Slog.StringValue (MessageId m));
                      ("error", Slog.ErrorValue e)]
       | None => p.1
       end in
     let l3 := handler_loop w2 [] after in
     (l3.1, l1.2 ++ own_failure m p.2 ++ l3.2)).
  { intros w before m after. cbn zeta. rewrite handler_loop_app.
    destruct (handler_loop w [] before) as [w1 f1]. cbn [fst snd].
    rewrite handler_loop_failures, handler_loop_cons. cbn zeta. by cbn [fst snd]. }
  split; [|split; [|split]].
  - intros w ev. unfold handler.
    by destruct (handler_loop w [] (Records ev)).
  - intros w before m after r1 p w2 r3.
    unfold r3, w2, p, r1. rewrite !handler_unfold. cbn [Records fst snd].
    by rewrite Hsplit.
  - intros w m. split.
    + by rewrite handler_single.
    + apply processMessage_error_iff.
  - intros w before m after event r1 p final key item Hdec Hserved.
    assert (Hp2 : p.2 = None ∧ table p.1 = <[key := item]> (table r1.1)).
    { unfold item, p. rewrite (processMessage_decoded _ _ _ Hdec).
      rewrite Hserved. by cbn [fst snd slog table now]. }
    destruct Hp2 as [Hok Htable].
    assert (Hfinal : table final =
                     table (handler_loop p.1 [] after).1).
    { unfold final. rewrite handler_unfold. cbn [Records fst].
      rewrite Hsplit. cbn zeta. cbn [fst].
      replace (handler_loop w [] before).1 with r1.1
        by (unfold r1; by rewrite handler_unfold).
      fold p. by rewrite Hok. }
    split; [exact Hok|]. split; [by rewrite Hok|]. split; [exact Htable|].
    rewrite Hfinal. split.
    + apply handler_loop_keeps_key. rewrite Htable, lookup_insert_eq. by eexists.
    + intros Hother. rewrite handler_loop_other_keys by exact Hother.
      by rewrite Htable, lookup_insert_eq.
Qed.

Lemma handler_partial_batch_failure_witness :
  let batch := [Samples.message_poison; Samples.message_acme;
                Samples.message_beta; Samples.message_poison] in
  let event := mkLogEvent "acme_corp" "101"
                 "User 800-555-0199 logged in from 192.168.1.1" "json_upload" in
  (handler Samples.worker_world (mkSQSEvent batch)).2 =
    (mkSQSEventResponse
       [mkSQSBatchItemFailure "msg-3"; mkSQSBatchItemFailure "msg-2";
        mkSQSBatchItemFailure "msg-3"], None) ∧
  table (handler Samples.worker_world (mkSQSEvent batch)).1 !! ("acme_corp", "101") =
    Some (item_of event "User [REDACTED] logged in from 192.168.1.1"
            1793650002200000000).
Proof.
  intros batch event.
  destruct handler_partial_batch_failure as (_ & Hsplit & _ & Hstored).
  split.
  - pose proof (Hsplit Samples.worker_world [Samples.message_poison]
                  Samples.message_acme
                  [Samples.message_beta; Samples.message_poison]) as H.
    cbn [app] in H. unfold batch. rewrite H. vm_compute. reflexivity.
  - assert (Hacme : Unmarshal (Body Samples.message_acme) zero_LogEvent =
                    (event, None)) by (vm_compute; reflexivity).
    assert (Hbeta : Unmarshal (Body Samples.message_beta) zero_LogEvent =
                    (mkLogEvent "beta_inc" "7" "mail a@b.com" "text_upload", None))
      by (vm_compute; reflexivity).
    assert (Hpoison : Unmarshal (Body Samples.message_poison) zero_LogEvent =
                      (zero_LogEvent, Some SyntaxError)) by (vm_compute; reflexivity).
    destruct (Hstored Samples.worker_world [Samples.message_poison]
                Samples.message_acme
                [Samples.message_beta; Samples.message_poison] event Hacme)
      as (_ & _ & _ & _ & Hlast); [vm_compute; reflexivity|].
    etrans; [apply Hlast|vm_compute; reflexivity].
    intros m' ev' Hin Hdec.
    apply elem_of_cons in Hin as [->|Hin].
    + rewrite Hbeta in Hdec. injection Hdec as <-. discriminate.
    + apply list_elem_of_singleton in Hin as ->.
      rewrite Hpoison in Hdec. discriminate.
Defined.

End BatchProcessor.

(** * Properties of the ingest handler *)

Section IngestProperties.
Import GoStrings Ingest Spec.

(** ** Headers *)

Lemma normalize_skip (name : string) (hs : list (string * string))
    (m : gmap string string) :
  (∀ k v, (k, v) ∈ hs → ToLower k ≠ name) →
  fold_left (fun headers kv => <[ToLower kv.1 := kv.2]> headers) hs m !! name
  = m !! name.
Proof.
  revert m. induction hs as [|[k v] hs IH]; intros m Hno; [reflexivity|].
  cbn [fold_left]. rewrite IH.
  - apply lookup_insert_ne. apply (Hno k v). by left.
  - intros k' v' Hin. apply (Hno k' v'). by right.
Qed.

(** The normalized map holds what [header_value] describes. *)
Lemma get_normalize hs name v :
  header_value hs name v → get (normalize hs) name = v.
Proof.
  unfold get, normalize. intros [Hno | before k v' after -> Hk Hno].
  - by rewrite normalize_skip, lookup_empty.
  - rewrite fold_left_app. cbn [fold_left fst snd].
    rewrite (normalize_skip name after) by exact Hno.
    by rewrite <- Hk, lookup_insert_eq.
Qed.

(** ** Validation *)

(** The event of a request that passes the first two checks. *)
Lemma parse_request_event w request :
  parse_request w request =
  if is_json request then
    if failed (Unmarshal (Body request)).2
    then inr (error_response 400 "Invalid JSON")
    else inl (mkLogEvent (tenant_id_of request)
                (default (random_uuid w)
                   (string_field (Unmarshal (Body request)).1 "log_id"))
                (original_text_of request) "json_upload")
  else if is_text request then
    inl (mkLogEvent (tenant_id_of request) (random_uuid w)
           (original_text_of request) "text_upload")
  else inr (error_response 400 "Unsupported Content-Type").
Proof.
  unfold parse_request, tenant_id_of, original_text_of, is_text, is_json,
    content_type.
  destruct (Contains _ "application/json").
  - by destruct (Unmarshal (Body request)) as [bodyMap [e|]].
  - reflexivity.
Qed.

(** A rejected request is answered at once, in the same world. *)
Lemma handler_rejected w request reason :
  rejection request = Some reason →
  handler w request = (w, (error_response 400 reason, None)).
Proof.
  unfold rejection, handler. rewrite parse_request_event.
  destruct (is_json request), (is_text request); cbn [negb andb];
    try destruct (failed _); cbn [TenantID OriginalText];
    try destruct (String.eqb (tenant_id_of request) "");
    try destruct (String.eqb (original_text_of request) "");
    intros H; try discriminate; by injection H as <-.
Qed.

(** A request that passes validation is sent to the queue, once. *)
Lemma handler_validated w request :
  rejection request = None →
  ∃ logEvent,
    parse_request w request = inl logEvent ∧
    TenantID logEvent = tenant_id_of request ∧
    OriginalText logEvent = original_text_of request ∧
    TenantID logEvent ≠ "" ∧ OriginalText logEvent ≠ "" ∧
    let w' := (SendMessage w (mkSendMessageInput (Marshal logEvent) (queueURL w))).1 in
    handler w request =
    match fault w with
    | Some e =>
        (slog_Error w' "Failed to enqueue message" [("error", Slog.ErrorValue e)],
         (error_response 500 "Internal server error", None))
    | None =>
        (w', (mkResponse 202 {["Content-Type" := "application/json"]}
                (accepted_body logEvent), None))
    end.
Proof.
  unfold rejection, handler. rewrite parse_request_event.
  destruct (is_json request), (is_text request); cbn [negb andb];
    try destruct (failed _); cbn [TenantID OriginalText];
    try destruct (String.eqb_spec (tenant_id_of request) "");
    try destruct (String.eqb_spec (original_text_of request) "");
    intros H; try discriminate;
    eexists; (split; [reflexivity|]); cbn [TenantID OriginalText];
    repeat (split; [done|]); unfold SendMessage; cbn [fst snd];
    by destruct (fault w).
Qed.




(** C5: a request that the Normalizer rejects, for whichever of the
    four reasons, is answered 400 in an unchanged world: no
    SendMessage call is made and the queue holds what it held. *)
Theorem rejected_request_never_enqueued w request reason :
  rejection request = Some reason →
  handler w request = (w, (error_response 400 reason, None)) ∧
  StatusCode (handler w request).2.1 = 400%Z ∧
  calls (handler w request).1 = calls w ∧
  queue (handler w request).1 = queue w.
Proof.
  intros Hrej. by rewrite (handler_rejected _ _ _ Hrej).
Qed.

Lemma rejected_request_never_enqueued_witness :
  rejection IngestSamples.request_no_tenant = Some "Missing tenant_id" ∧
  handler IngestSamples.world IngestSamples.request_no_tenant =
    (IngestSamples.world, (error_response 400 "Missing tenant_id", None)) ∧
  calls (handler IngestSamples.world IngestSamples.request_no_tenant).1 = [].
Proof.
  assert (H : rejection IngestSamples.request_no_tenant = Some "Missing tenant_id")
    by (vm_compute; reflexivity).
  split; [exact H|].
  destruct (rejected_request_never_enqueued IngestSamples.world _ _ H)
    as (Hresp & _ & Hcalls & _).
  split; [exact Hresp | exact Hcalls].
Defined.

(** The other way round: a request that passes validation makes
    exactly one SendMessage call. *)
Lemma validated_request_enqueued_once w request :
  rejection request = None →
  ∃ input, calls (handler w request).1 = (calls w ++ [input])%list.
Proof.
  intros Hrej.
  destruct (handler_validated w _ Hrej) as (ev & _ & _ & _ & _ & _ & ->).
  eexists. by destruct (fault w).
Qed.

(** C10: whatever the request and the world, the handler returns a nil
    error and a response whose status is 202, 400 or 500. *)
Theorem handler_total w request :
  (handler w request).2.2 = None ∧
  StatusCode (handler w request).2.1 ∈ [202%Z; 400%Z; 500%Z].
Proof.
  destruct (rejection request) as [reason|] eqn:Hrej.
  - rewrite (handler_rejected _ _ _ Hrej). cbn. set_solver.
  - destruct (handler_validated w _ Hrej) as (ev & _ & _ & _ & _ & _ & ->).
    destruct (fault w); cbn; set_solver.
Qed.

End IngestProperties.

Section Dispatch.
Import GoStrings Ingest Spec.

(** ** Dispatch on the content type *)

(** C4, as the claim states it, fails: the value [Application/JSON]
    contains [application/json] up to letter case, and the request
    does not take the JSON path: no event is built from its body, it is
    refused as of an unsupported content type. *)
Lemma content_type_value_is_case_sensitive :
  Contains (ToLower (content_type IngestSamples.request_mixed_case))
           "application/json" = true ∧
  (∀ logEvent,
     parse_request IngestSamples.world IngestSamples.request_mixed_case
     ≠ inl logEvent) ∧
  handler IngestSamples.world IngestSamples.request_mixed_case =
  (IngestSamples.world,
   (error_response 400 "Unsupported Content-Type", None)).
Proof.
  split; [vm_compute; reflexivity|]. split; [|vm_compute; reflexivity].
  intros logEvent.
  replace (parse_request IngestSamples.world IngestSamples.request_mixed_case)
    with (inr (error_response 400 "Unsupported Content-Type")
          : LogEvent + APIGatewayV2HTTPResponse)
    by (vm_compute; reflexivity).
  discriminate.
Qed.

(** C4, amended: the header is found by its name in any letter case,
    and its value [ct] is searched as it is, letter case included:
    a value with [application/json] in it selects the JSON path, one
    without it and with [text/plain] in it the text path, any other
    value is refused with 400 Unsupported Content-Type, and so is a
    request without the header. *)
Theorem content_type_dispatch w request ct :
  header_value (Headers request) "content-type" ct →
  (Contains ct "application/json" = true →
     parse_request w request =
     if failed (Unmarshal (Body request)).2
     then inr (error_response 400 "Invalid JSON")
     else inl (mkLogEvent (tenant_id_of request)
                 (default (random_uuid w)
                    (string_field (Unmarshal (Body request)).1 "log_id"))
                 (original_text_of request) "json_upload")) ∧
  (Contains ct "application/json" = false → Contains ct "text/plain" = true →
     parse_request w request =
     inl (mkLogEvent (get (normalize (Headers request)) "x-tenant-id")
            (random_uuid w) (Body request) "text_upload")) ∧
  (Contains ct "application/json" = false → Contains ct "text/plain" = false →
     handler w request =
     (w, (error_response 400 "Unsupported Content-Type", None))) ∧
  ((∀ k v, (k, v) ∈ Headers request → ToLower k ≠ "content-type") →
     handler w request =
     (w, (error_response 400 "Unsupported Content-Type", None))).
Proof.
  intros Hct. apply get_normalize in Hct. fold (content_type request) in Hct.
  assert (Hdispatch : ∀ j t,
            is_json request = j → is_text request = t →
            j = false → t = false →
            handler w request =
            (w, (error_response 400 "Unsupported Content-Type", None))).
  { intros j t Hj Ht -> ->. apply handler_rejected.
    unfold rejection. by rewrite Hj, Ht. }
  repeat split.
  - intros Hj. rewrite parse_request_event. unfold is_json. by rewrite Hct, Hj.
  - intros Hj Ht. rewrite parse_request_event.
    unfold tenant_id_of, original_text_of, is_json, is_text.
    by rewrite Hct, Hj, Ht.
  - intros Hj Ht. eapply Hdispatch; unfold is_json, is_text; by rewrite ?Hct.
  - intros Hno.
    assert (Hempty : content_type request = "")
      by (apply get_normalize; by constructor).
    eapply Hdispatch; unfold is_json, is_text; by rewrite ?Hempty.
Qed.

Lemma content_type_dispatch_witness :
  header_value (Headers IngestSamples.request_mixed_case) "content-type"
               "Application/JSON" ∧
  Contains "Application/JSON" "application/json" = false ∧
  Contains "Application/JSON" "text/plain" = false ∧
  handler IngestSamples.world IngestSamples.request_mixed_case =
  (IngestSamples.world,
   (error_response 400 "Unsupported Content-Type", None)).
Proof.
  assert (H : header_value (Headers IngestSamples.request_mixed_case)
                "content-type" "Application/JSON").
  { apply (header_present _ _ [] "Content-Type" _ []).
    - reflexivity.
    - reflexivity.
    - intros k v Hin. by apply elem_of_nil in Hin. }
  split; [exact H|]. split; [reflexivity|]. split; [reflexivity|].
  destruct (content_type_dispatch IngestSamples.world _ _ H) as (_ & _ & H3 & _).
  apply H3; reflexivity.
Defined.

(** ** JSON fields *)

Lemma fold_insert_last_member key members (m : gmap string Json.value) :
  fold_left (fun m kv => <[kv.1 := kv.2]> m) members m !! key =
  or_else (last_member key members) (m !! key).
Proof.
  revert m. induction members as [|[k v] rest IH]; intros m; [reflexivity|].
  cbn [fold_left last_member fst snd]. rewrite IH.
  destruct (last_member key rest) as [v'|]; [reflexivity|]. cbn [or_else].
  destruct (String.eqb_spec k key) as [->|Hne].
  - by rewrite lookup_insert_eq.
  - by rewrite lookup_insert_ne.
Qed.

(** The type assertion on the decoded map reads the last member of
    that name, and only if it is a string. *)
Lemma string_field_members key members :
  string_field (Json.map_of_members members) key = string_member key members.
Proof.
  unfold string_field, string_member, Json.map_of_members.
  rewrite fold_insert_last_member, lookup_empty.
  by destruct (last_member key members).
Qed.

(** C7, as the claim states it, fails: the body [[]] is a JSON text
    without any of the fields, and it is answered as invalid JSON,
    not as a request whose tenant_id is missing. *)
Lemma valid_json_array_is_refused :
  is_json IngestSamples.request_array = true ∧
  Json.parse (Body IngestSamples.request_array) = Some (Json.Array []) ∧
  handler IngestSamples.world IngestSamples.request_array =
  (IngestSamples.world, (error_response 400 "Invalid JSON", None)) ∧
  (handler IngestSamples.world IngestSamples.request_array).2.1 ≠
  error_response 400 "Missing tenant_id".
Proof.
  assert (H : handler IngestSamples.world IngestSamples.request_array =
              (IngestSamples.world, (error_response 400 "Invalid JSON", None)))
    by (vm_compute; reflexivity).
  split; [vm_compute; reflexivity|]. split; [vm_compute; reflexivity|].
  split; [exact H|]. rewrite H. cbn [fst snd]. intros Heq.
  apply (f_equal ResponseBody) in Heq. vm_compute in Heq. discriminate.
Qed.

(** C7, amended: on the JSON path, a body that is a JSON object whose
    numbers fit a float64 yields an event whose tenant_id, text and
    log_id are the last members of these names when they are JSON
    strings; a member that is absent or of another type counts as
    absent, which gives the empty tenant_id or text (refused with the
    400 of the missing field) or the generated log_id.  The body
    [null] counts as an object without members.  Every other body is
    answered 400 Invalid JSON: a text that is not JSON, a JSON value
    that is neither an object nor [null], an object with a number
    beyond the float64 range. *)
Theorem json_fields_by_type w request :
  is_json request = true →
  match Json.parse (Body request) with
  | Some (Json.Object members) =>
      if Json.numbers_fit (Json.Object members) then
        let tenant := default "" (string_member "tenant_id" members) in
        let text := default "" (string_member "text" members) in
        let logID := default (random_uuid w) (string_member "log_id" members) in
        parse_request w request =
          inl (mkLogEvent tenant logID text "json_upload") ∧
        (tenant = "" →
           handler w request =
           (w, (error_response 400 "Missing tenant_id", None))) ∧
        (tenant ≠ "" → text = "" →
           handler w request =
           (w, (error_response 400 "Missing text content", None))) ∧
        (tenant ≠ "" → text ≠ "" →
           calls (handler w request).1 =
           (calls w ++
            [mkSendMessageInput
               (Marshal (mkLogEvent tenant logID text "json_upload"))
               (queueURL w)])%list)
      else
        handler w request = (w, (error_response 400 "Invalid JSON", None))
  | Some Json.Null =>
      parse_request w request =
        inl (mkLogEvent "" (random_uuid w) "" "json_upload") ∧
      handler w request = (w, (error_response 400 "Missing tenant_id", None))
  | _ =>
      handler w request = (w, (error_response 400 "Invalid JSON", None))
  end.
Proof.
  intros Hj.
  assert (Hbad : failed (Unmarshal (Body request)).2 = true →
                 handler w request =
                 (w, (error_response 400 "Invalid JSON", None))).
  { intros Hf. apply handler_rejected. unfold rejection.
    by rewrite Hj, Hf. }
  assert (Hparse := parse_request_event w request).
  rewrite Hj in Hparse. unfold tenant_id_of, original_text_of in Hparse.
  rewrite Hj in Hparse. unfold Unmarshal in Hbad, Hparse.
  destruct (Json.parse (Body request)) as [[| | | | |members]|];
    try (by apply Hbad).
  - (* null *)
    cbn in Hparse. split; [exact Hparse|].
    unfold handler. by rewrite Hparse.
  - (* an object *)
    destruct (Json.numbers_fit (Json.Object members)); [|by apply Hbad].
    cbn [fst snd failed] in Hparse. rewrite !string_field_members in Hparse.
    cbn zeta. split; [exact Hparse|].
    unfold handler. rewrite Hparse. cbn [TenantID OriginalText].
    repeat split.
    + by intros ->.
    + intros Ht ->. by destruct (String.eqb_spec (default "" (string_member "tenant_id" members)) "").
    + intros Ht Hx.
      destruct (String.eqb_spec (default "" (string_member "tenant_id" members)) ""); [done|].
      destruct (String.eqb_spec (default "" (string_member "text" members)) ""); [done|].
      unfold SendMessage. by destruct (fault w).
Qed.

Lemma json_fields_by_type_witness :
  is_json IngestSamples.request_numeric_tenant = true ∧
  handler IngestSamples.world IngestSamples.request_numeric_tenant =
  (IngestSamples.world, (error_response 400 "Missing tenant_id", None)).
Proof.
  assert (Hj : is_json IngestSamples.request_numeric_tenant = true)
    by (vm_compute; reflexivity).
  split; [exact Hj|].
  pose proof (json_fields_by_type IngestSamples.world _ Hj) as H.
  assert (Hp : Json.parse (Body IngestSamples.request_numeric_tenant) =
               Some (Json.Object [("tenant_id", Json.Number "42");
                                  ("text", Json.Str "hello")]))
    by (vm_compute; reflexivity).
  rewrite Hp in H.
  assert (Hn : Json.numbers_fit
                 (Json.Object [("tenant_id", Json.Number "42");
                               ("text", Json.Str "hello")]) = true)
    by (vm_compute; reflexivity).
  rewrite Hn in H. destruct H as (_ & H & _). apply H. reflexivity.
Defined.

End Dispatch.

(** * Further properties of the worker *)

Section WorkerBatch.
Import Worker.
Local Open Scope list_scope.



(** The loop reports identifiers of its records, in their order. *)
Lemma handler_loop_reports_sublist w records :
  (ItemIdentifier <$> (handler_loop w [] records).2)
  `sublist_of` (MessageId <$> records).
Proof.
  revert w. induction records as [|m rest IH]; intros w; [constructor|].
  rewrite handler_loop_cons. cbn zeta. cbn [fst snd].
  rewrite fmap_app, fmap_cons.
  destruct (processMessage w m).2; cbn [Spec.own_failure fmap list_fmap app].
  - apply sublist_skip, IH.
  - apply sublist_cons, IH.
Qed.

Lemma handler_loop_reports_length w records :
  (List.length (handler_loop w [] records).2 ≤ List.length records)%nat.
Proof.
  pose proof (sublist_length _ _ (handler_loop_reports_sublist w records)) as H.
  by rewrite !length_fmap in H.
Qed.

(** X1: the identifiers that the handler reports are identifiers of
    messages of the batch, in the order of the batch and each message
    at most once: the report is never longer than the batch, and it
    repeats no identifier when the batch repeats none. *)
Theorem failures_sublist_of_batch w sqsEvent :
  let reported : list string :=
    ItemIdentifier <$> BatchItemFailures (handler w sqsEvent).2.1 in
  reported `sublist_of` (MessageId <$> Records sqsEvent) ∧
  (List.length reported ≤ List.length (Records sqsEvent))%nat ∧
  (NoDup (MessageId <$> Records sqsEvent) → NoDup reported).
Proof.
  intros reported.
  assert (Hsub : reported `sublist_of` (MessageId <$> Records sqsEvent)).
  { unfold reported. rewrite handler_unfold. cbn [fst snd BatchItemFailures].
    apply handler_loop_reports_sublist. }
  split; [exact Hsub|]. split.
  - apply sublist_length in Hsub. by rewrite length_fmap in Hsub.
  - intros Hnd. by eapply sublist_NoDup.
Qed.

Lemma failures_sublist_of_batch_witness :
  NoDup (MessageId <$> [Samples.message_acme; Samples.message_poison;
                        Samples.message_beta]) ∧
  NoDup (ItemIdentifier <$>
         BatchItemFailures
           (handler Samples.worker_world
              (mkSQSEvent [Samples.message_acme; Samples.message_poison;
                           Samples.message_beta])).2.1).
Proof.
  assert (H : NoDup (MessageId <$> [Samples.message_acme; Samples.message_poison;
                                    Samples.message_beta])).
  { apply (bool_decide_unpack (NoDup _)). vm_compute. exact I. }
  split; [exact H|].
  destruct (failures_sublist_of_batch Samples.worker_world
              (mkSQSEvent [Samples.message_acme; Samples.message_poison;
                           Samples.message_beta])) as (_ & _ & Hnd).
  apply Hnd, H.
Defined.


Lemma same_store_trans w1 w2 w3 :
  Store.same w1 w2 → Store.same w2 w3 → Store.same w1 w3.
Proof.
  intros (Ht & Hn & Hf) (Ht' & Hn' & Hf'). repeat split; congruence.
Qed.

(** What a message does to the table, the clock and the calls to come,
    and whether it fails, does not depend on the log. *)
Lemma processMessage_same_store w w' m :
  Store.same w w' →
  (processMessage w m).2 = (processMessage w' m).2 ∧
  Store.same (processMessage w m).1 (processMessage w' m).1.
Proof.
  intros (Ht & Hn & Hf).
  destruct (Unmarshal (Body m) zero_LogEvent) as [event [e|]] eqn:Hdec.
  - rewrite !(processMessage_decode_error _ _ _ _ Hdec). by repeat split.
  - rewrite !(processMessage_decoded _ _ _ Hdec). rewrite Hf.
    destruct (hd None (faults w')); cbn [fst snd slog Sleep table now faults];
      rewrite ?Ht, ?Hn; by repeat split.
Qed.

Lemma handler_loop_same_store records : ∀ w w',
  Store.same w w' →
  Store.same (handler_loop w [] records).1 (handler_loop w' [] records).1.
Proof.
  induction records as [|m rest IH]; intros w w' Hsame; [exact Hsame|].
  rewrite !handler_loop_cons. cbn zeta. cbn [fst]. apply IH.
  destruct (processMessage_same_store w w' m Hsame) as (Herr & Hs).
  rewrite <- Herr. by destruct (processMessage w m).2.
Qed.

(** A message that does not decode is returned at once: no sleep, no
    write. *)
Lemma undecodable_returns_at_once w m :
  Store.decodes m = false →
  ∃ e, processMessage w m = (w, Some e).
Proof.
  unfold Store.decodes. intros H.
  destruct (Unmarshal (Body m) zero_LogEvent) as [event [e|]] eqn:Hdec;
    [|discriminate].
  exists e. by apply (processMessage_decode_error _ _ event).
Qed.

(** X2: a message whose payload does not decode is reported and leaves
    no other trace than the record of its failure in the log:
    [processMessage] returns before it sleeps and before it calls
    [PutItem].  The table, the clock and the [PutItem] calls to come
    are after a batch what they are after the batch without its
    messages that do not decode; a batch of such messages only leaves
    them as they were, and every one of its messages is reported. *)
Theorem undecodable_messages_leave_no_trace :
  (∀ w sqsEvent,
     Store.same (handler w sqsEvent).1
       (handler w (mkSQSEvent (List.filter Store.decodes (Records sqsEvent)))).1) ∧
  (∀ w sqsEvent,
     (∀ m, m ∈ Records sqsEvent → Store.decodes m = false) →
     Store.same (handler w sqsEvent).1 w ∧
     ItemIdentifier <$> BatchItemFailures (handler w sqsEvent).2.1 =
     MessageId <$> Records sqsEvent).
Proof.
  assert (Hfilter : ∀ records w,
    Store.same (handler_loop w [] records).1
      (handler_loop w [] (List.filter Store.decodes records)).1).
  { induction records as [|m rest IH]; intros w; [done|].
    cbn [List.filter]. destruct (Store.decodes m) eqn:Hm.
    - rewrite !handler_loop_cons. cbn zeta. cbn [fst]. apply IH.
    - rewrite handler_loop_cons. cbn zeta. cbn [fst].
      destruct (undecodable_returns_at_once w m Hm) as (e & ->). cbn [fst snd].
      eapply same_store_trans; [apply IH|].
      apply handler_loop_same_store. done. }
  split.
  - intros w sqsEvent. rewrite !handler_unfold. cbn [fst Records]. apply Hfilter.
  - intros w sqsEvent Hall. split.
    + rewrite handler_unfold. cbn [fst].
      eapply same_store_trans; [apply Hfilter|].
      replace (List.filter Store.decodes (Records sqsEvent)) with (@nil SQSMessage);
        [done|].
      revert Hall. generalize (Records sqsEvent) as records.
      induction records as [|m rest IH]; intros Hall; [reflexivity|].
      cbn [List.filter]. rewrite (Hall m) by (by left).
      apply IH. intros m' Hm'. apply Hall. by right.
    + rewrite handler_unfold. cbn [fst snd BatchItemFailures].
      revert w Hall. generalize (Records sqsEvent) as records.
      induction records as [|m rest IH]; intros w Hall; [reflexivity|].
      rewrite handler_loop_cons. cbn zeta. cbn [snd].
      destruct (undecodable_returns_at_once w m (Hall m ltac:(by left)))
        as (e & ->). cbn [fst snd Spec.own_failure].
      rewrite fmap_app, IH by (intros m' Hm'; apply Hall; by right).
      reflexivity.
Qed.

Lemma undecodable_messages_leave_no_trace_witness :
  let batch := mkSQSEvent [Samples.message_poison; Samples.message_poison] in
  Store.same (handler Samples.worker_world batch).1 Samples.worker_world ∧
  ItemIdentifier <$> BatchItemFailures (handler Samples.worker_world batch).2.1 =
  ["msg-3"; "msg-3"].
Proof.
  intros batch.
  destruct undecodable_messages_leave_no_trace as (_ & Hall).
  apply (Hall Samples.worker_world batch).
  intros m Hin. cbn [batch Records] in Hin.
  apply elem_of_cons in Hin as [->|Hin]; [vm_compute; reflexivity|].
  apply list_elem_of_singleton in Hin as ->. vm_compute. reflexivity.
Defined.

(** ** Isolation *)

(** X3: a batch writes only under the keys of its own messages: a
    record whose [(tenant_id, log_id)] is the key of none of the events
    that the messages of the batch decode to is after the batch what it
    was before, present or absent; in particular the records of a
    tenant that no message of the batch names are untouched. *)
Theorem batch_writes_only_its_keys w sqsEvent :
  (∀ key,
     (∀ m event, m ∈ Records sqsEvent →
        Unmarshal (Body m) zero_LogEvent = (event, None) →
        (TenantID event, LogID event) ≠ key) →
     table (handler w sqsEvent).1 !! key = table w !! key) ∧
  (∀ tenant,
     (∀ m event, m ∈ Records sqsEvent →
        Unmarshal (Body m) zero_LogEvent = (event, None) →
        TenantID event ≠ tenant) →
     ∀ log_id,
       table (handler w sqsEvent).1 !! (tenant, log_id) =
       table w !! (tenant, log_id)).
Proof.
  assert (Hkey : ∀ key,
     (∀ m event, m ∈ Records sqsEvent →
        Unmarshal (Body m) zero_LogEvent = (event, None) →
        (TenantID event, LogID event) ≠ key) →
     table (handler w sqsEvent).1 !! key = table w !! key).
  { intros key. rewrite handler_unfold. cbn [fst].
    generalize (Records sqsEvent) as records. intros records. revert w.
    induction records as [|m rest IH]; intros w Hother; [reflexivity|].
    rewrite handler_loop_cons. cbn zeta. cbn [fst].
    rewrite IH.
    - assert (Hm : table (processMessage w m).1 !! key = table w !! key).
      { destruct (processMessage_table w m) as [->|(ev & it & Hdec & _ & ->)];
          [done|].
        apply lookup_insert_ne. apply (Hother m ev); [by left|exact Hdec]. }
      by destruct (processMessage w m).2.
    - intros m' ev Hin. apply Hother. by right. }
  split; [exact Hkey|].
  intros tenant Hother log_id. apply Hkey.
  intros m ev Hin Hdec Heq. apply (Hother m ev Hin Hdec). by injection Heq.
Qed.

Lemma batch_writes_only_its_keys_witness :
  let batch := mkSQSEvent [Samples.message_acme; Samples.message_poison] in
  (∀ m event, m ∈ Records batch →
     Unmarshal (Body m) zero_LogEvent = (event, None) →
     TenantID event ≠ "beta_inc") ∧
  table (handler Samples.worker_world batch).1 !! ("beta_inc", "7") =
  table Samples.worker_world !! ("beta_inc", "7").
Proof.
  intros batch.
  assert (Hacme : Unmarshal (Body Samples.message_acme) zero_LogEvent =
                  (mkLogEvent "acme_corp" "101"
                     "User 800-555-0199 logged in from 192.168.1.1"
                     "json_upload", None)) by (vm_compute; reflexivity).
  assert (Hpoison : Unmarshal (Body Samples.message_poison) zero_LogEvent =
                    (zero_LogEvent, Some SyntaxError)) by (vm_compute; reflexivity).
  assert (H : ∀ m event, m ∈ Records batch →
                Unmarshal (Body m) zero_LogEvent = (event, None) →
                TenantID event ≠ "beta_inc").
  { intros m ev Hin Hdec. cbn [batch Records] in Hin.
    apply elem_of_cons in Hin as [->|Hin].
    - rewrite Hacme in Hdec. injection Hdec as <-. discriminate.
    - apply list_elem_of_singleton in Hin as ->.
      rewrite Hpoison in Hdec. discriminate. }
  split; [exact H|].
  destruct (batch_writes_only_its_keys Samples.worker_world batch) as (_ & Htenant).
  exact (Htenant "beta_inc" H "7").
Defined.

(** X4: the worker never deletes and never empties a record: every key
    present in the table before a batch is present after it, so the
    table never holds fewer records. *)
Theorem handler_keeps_every_key w sqsEvent :
  dom (table w) ⊆ dom (table (handler w sqsEvent).1) ∧
  (size (table w) ≤ size (table (handler w sqsEvent).1))%nat.
Proof.
  assert (Hdom : dom (table w) ⊆ dom (table (handler w sqsEvent).1)).
  { rewrite handler_unfold. cbn [fst].
    generalize (Records sqsEvent) as records. intros records. revert w.
    induction records as [|m rest IH]; intros w; [done|].
    rewrite handler_loop_cons. cbn zeta. cbn [fst].
    etrans; [|apply IH].
    assert (Hm : dom (table w) ⊆ dom (table (processMessage w m).1)).
    { destruct (processMessage_table w m) as [->|(ev & it & _ & _ & ->)];
        [done|]. rewrite dom_insert_L. set_solver. }
    by destruct (processMessage w m).2. }
  split; [exact Hdom|].
  rewrite <- !size_dom. by apply subseteq_size.
Qed.

End WorkerBatch.

Section WorkerDelay.
Import Worker.
Local Open Scope Z_scope.

(** ** The delay of a batch *)

Lemma processMessage_clock w m :
  now w <= now (processMessage w m).1 <= now w + 5 * GoTime.Second.
Proof.
  destruct (Unmarshal (Body m) zero_LogEvent) as [event [e|]] eqn:Hdec.
  - rewrite (processMessage_decode_error _ _ _ _ Hdec). cbn [fst].
    unfold GoTime.Second. lia.
  - rewrite (processMessage_decoded _ _ _ Hdec).
    pose proof (sleepDuration_le_cap (len (OriginalText event))) as Hcap.
    destruct (hd None (faults w)); cbn [fst now slog Sleep];
      unfold GoTime.Second in *; lia.
Qed.

(** X5: a batch advances the clock by the delays of its messages, each
    at most the cap: the time slept by the handler is never negative
    and at most 5 s per message of the batch.  For a batch within the
    batch size of the event source mapping that is at most 25 s, below
    the timeout of the worker function, itself within the visibility
    timeout of the queue. *)
Theorem batch_delay_bounded w sqsEvent :
  let slept := now (handler w sqsEvent).1 - now w in
  let n := Z.of_nat (List.length (Records sqsEvent)) in
  0 <= slept <= n * (5 * GoTime.Second) ∧
  ((List.length (Records sqsEvent) ≤ Deployment.batch_size)%nat →
   slept <= 25 * GoTime.Second ∧
   slept < Deployment.worker_timeout * GoTime.Second ∧
   Deployment.worker_timeout <= Deployment.visibility_timeout_seconds).
Proof.
  intros slept n.
  assert (Hb : 0 <= slept <= n * (5 * GoTime.Second)).
  { unfold slept, n. clear slept n. rewrite handler_unfold. cbn [fst].
    generalize (Records sqsEvent) as records. intros records. revert w.
    induction records as [|m rest IH]; intros w.
    - cbn. lia.
    - rewrite handler_loop_cons. cbn zeta. cbn [fst].
      pose proof (processMessage_clock w m) as Hm.
      match goal with
      | |- context [handler_loop ?w1 [] rest] =>
          pose proof (IH w1) as Hrest;
          assert (Hw1 : now w1 = now (processMessage w m).1)
            by (destruct (processMessage w m).2; reflexivity)
      end.
      rewrite Hw1 in Hrest. cbn [length]. unfold GoTime.Second in *. lia. }
  split; [exact Hb|].
  intros Hsize. unfold Deployment.batch_size in Hsize.
  unfold Deployment.worker_timeout, Deployment.visibility_timeout_seconds,
    GoTime.Second in *.
  unfold n in Hb. lia.
Qed.

Lemma batch_delay_bounded_witness :
  let batch := mkSQSEvent [Samples.message_acme; Samples.message_poison;
                           Samples.message_beta] in
  (List.length (Records batch) ≤ Deployment.batch_size)%nat ∧
  now (handler Samples.worker_world batch).1 - now Samples.worker_world
    = 2800000000 ∧
  now (handler Samples.worker_world batch).1 - now Samples.worker_world
    < Deployment.worker_timeout * GoTime.Second.
Proof.
  intros batch.
  assert (H : (List.length (Records batch) ≤ Deployment.batch_size)%nat)
    by (vm_compute; lia).
  split; [exact H|]. split; [vm_compute; reflexivity|].
  destruct (batch_delay_bounded Samples.worker_world batch) as (_ & Hcfg).
  exact (proj1 (proj2 (Hcfg H))).
Defined.

End WorkerDelay.

Section WorkerLog.
Import Worker.
Local Open Scope list_scope.

(** ** The failures in the log *)

Lemma errors_app out1 out2 :
  Logs.errors (out1 ++ out2) = Logs.errors out1 ++ Logs.errors out2.
Proof. unfold Logs.errors. apply List.filter_app. Qed.

(** Processing a message writes no record at the level of errors. *)
Lemma processMessage_errors w m :
  Logs.errors (output (processMessage w m).1) = Logs.errors (output w).
Proof.
  destruct (Unmarshal (Body m) zero_LogEvent) as [event [e|]] eqn:Hdec.
  - by rewrite (processMessage_decode_error _ _ _ _ Hdec).
  - rewrite (processMessage_decoded _ _ _ Hdec).
    destruct (hd None (faults w));
      cbn [fst slog Sleep output]; rewrite ?errors_app, ?app_nil_r;
      cbn; by rewrite ?app_nil_r.
Qed.

Lemma handler_loop_errors records : ∀ w,
  ∃ errs,
    List.length errs = List.length (handler_loop w [] records).2 ∧
    Logs.errors (output (handler_loop w [] records).1) =
    Logs.errors (output w) ++
    zip_with Logs.failure_record (handler_loop w [] records).2 errs.
Proof.
  induction records as [|m rest IH]; intros w.
  - exists []. split; [reflexivity|]. cbn. by rewrite app_nil_r.
  - rewrite handler_loop_cons. cbn zeta. cbn [fst snd].
    pose proof (processMessage_errors w m) as Hm.
    destruct (processMessage w m) as [w1 [e|]]; cbn [fst snd] in *.
    + destruct (IH (slog Slog.LevelError w1 "Processing failed"
                      [("message_id", Slog.StringValue (MessageId m));
                       ("error", Slog.ErrorValue e)])) as (errs & Hlen & Hout).
      exists (e :: errs). split; [cbn; by rewrite Hlen|].
      rewrite Hout. cbn [slog output]. rewrite errors_app, Hm.
      cbn [Spec.own_failure app zip_with]. by rewrite <- app_assoc.
    + destruct (IH w1) as (errs & Hlen & Hout).
      exists errs. split; [exact Hlen|]. by rewrite Hout, Hm.
Qed.

(** X16: the handler writes one record at the level of errors for each
    failure that it reports, with the identifier of the message and the
    error, in the order of the report, and no other record at this
    level. *)
Theorem failures_are_logged w sqsEvent :
  let r := handler w sqsEvent in
  ∃ errs,
    List.length errs = List.length (BatchItemFailures r.2.1) ∧
    Logs.errors (output r.1) =
    Logs.errors (output w) ++
    zip_with Logs.failure_record (BatchItemFailures r.2.1) errs.
Proof.
  cbn zeta. rewrite handler_unfold. cbn [fst snd BatchItemFailures].
  apply handler_loop_errors.
Qed.

End WorkerLog.

Section Redaction.
Import GoStrings Regexp Worker.

(** ** Redaction *)

(** Where no match starts, the text is copied. *)
Lemma replace_from_no_match re repl s :
  (∀ prev s', match_here re prev s' = None ∨ Text.every Text.plain s' = false) →
  Text.every Text.plain s = true →
  ∀ prev adj, replace_from re repl prev O adj s = s.
Proof.
  intros Hno. induction s as [|c s IH]; intros Hs prev adj.
  - cbn. destruct (Hno prev "") as [->|H]; [reflexivity|discriminate].
  - cbn [replace_from].
    destruct (Hno prev (String c s)) as [->|H]; [|congruence].
    cbn [Text.every] in Hs. apply andb_prop in Hs as [_ Hs].
    by rewrite IH.
Qed.

Lemma phonePattern_needs_digit prev s :
  match_here phonePattern prev s = None ∨ Text.every Text.plain s = false.
Proof.
  destruct s as [|c s]; [left; cbn; by destruct (xorb _ _)|].
  destruct (is_digit c) eqn:Hd.
  - right. cbn [Text.every]. unfold Text.plain. by rewrite Hd.
  - left. cbn. rewrite Hd. by destruct (xorb _ _).
Qed.

Lemma ssnPattern_needs_digit prev s :
  match_here ssnPattern prev s = None ∨ Text.every Text.plain s = false.
Proof.
  destruct s as [|c s]; [left; cbn; by destruct (xorb _ _)|].
  destruct (is_digit c) eqn:Hd.
  - right. cbn [Text.every]. unfold Text.plain. by rewrite Hd.
  - left. cbn. rewrite Hd. by destruct (xorb _ _).
Qed.

Lemma local_part_needs_at rest prev s :
  Text.every Text.plain s = true →
  match_here (Plus word_dot_dash :: Class at_sign :: rest) prev s = None.
Proof.
  revert prev. induction s as [|c s IH]; intros prev Hs; [reflexivity|].
  cbn [Text.every] in Hs. apply andb_prop in Hs as [Hc Hs].
  specialize (IH (Some c) Hs). cbn in IH. cbn.
  destruct (word_dot_dash c); [|reflexivity].
  rewrite IH. cbn.
  destruct s as [|c' s]; [reflexivity|].
  cbn [Text.every] in Hs. apply andb_prop in Hs as [Hc' _].
  unfold Text.plain in Hc'. apply andb_prop in Hc' as [_ Hat].
  apply negb_true_iff in Hat. by rewrite Hat.
Qed.

Lemma emailPattern_needs_at prev s :
  match_here emailPattern prev s = None ∨ Text.every Text.plain s = false.
Proof.
  destruct (Text.every Text.plain s) eqn:Hs; [left|by right].
  change (match_here emailPattern prev s) with
    (if xorb (word_before prev) (word_after s)
     then match_here (Plus word_dot_dash :: Class at_sign ::
                      [Plus word_dot_dash; Class dot; Plus is_word; WordBoundary])
                     prev s
     else None).
  rewrite local_part_needs_at by done. by destruct (xorb _ _).
Qed.

(** X6: a text without any digit and without any at sign holds nothing
    that one of the three patterns matches: [redactPII] returns it
    byte for byte. *)
Theorem redactPII_keeps_plain_text text :
  Text.every Text.plain text = true → redactPII text = text.
Proof.
  intros Hplain. unfold redactPII, ReplaceAllString.
  rewrite (replace_from_no_match phonePattern) by
    (done || apply phonePattern_needs_digit).
  rewrite (replace_from_no_match ssnPattern) by
    (done || apply ssnPattern_needs_digit).
  by rewrite (replace_from_no_match emailPattern) by
    (done || apply emailPattern_needs_at).
Qed.

Lemma redactPII_keeps_plain_text_witness :
  Text.every Text.plain "disk /dev/sda full - paging oncall" = true ∧
  redactPII "disk /dev/sda full - paging oncall" =
    "disk /dev/sda full - paging oncall".
Proof.
  assert (H : Text.every Text.plain "disk /dev/sda full - paging oncall" = true)
    by (vm_compute; reflexivity).
  split; [exact H|]. exact (redactPII_keeps_plain_text _ H).
Defined.

End Redaction.

Section RedactionInContext.
Import GoStrings Regexp Worker.

Lemma digit_is_word c : is_digit c = true → is_word c = true.
Proof. intros H. unfold is_word. by rewrite H. Qed.

Lemma digit_no_separator c : is_digit c = true → dash_or_dot c = false.
Proof.
  unfold is_digit, in_range, dash_or_dot, dash, dot. intros H.
  apply andb_prop in H as [H1 H2].
  apply N.leb_le in H1. apply N.leb_le in H2.
  destruct (Ascii.eqb_spec c "-") as [->|_]; [cbn in H1; lia|].
  destruct (Ascii.eqb_spec c ".") as [->|_]; [cbn in H1; lia|].
  reflexivity.
Qed.

Lemma digit_no_dash c : is_digit c = true → dash c = false.
Proof.
  intros H. apply digit_no_separator in H. unfold dash_or_dot in H.
  by apply orb_false_elim in H as [? _].
Qed.

Lemma digits_inv n s :
  Shapes.digits n s = true →
  String.length s = n ∧ Text.every is_digit s = true.
Proof.
  unfold Shapes.digits. intros H. apply andb_prop in H as [H1 H2].
  by apply Nat.eqb_eq in H1.
Qed.

Lemma every_app p s t :
  Text.every p (s ++ t) = Text.every p s && Text.every p t.
Proof.
  induction s as [|c s IH]; [reflexivity|].
  change (String c s ++ t) with (String c (s ++ t)).
  cbn [Text.every]. by rewrite IH, andb_assoc.
Qed.

(** A text without digits before a match of a pattern that starts with
    a digit is copied, and matching resumes behind it. *)
Lemma replace_from_plain_prefix re repl pre rest :
  (∀ prev c s, is_digit c = false → match_here re prev (String c s) = None) →
  Text.every Text.plain pre = true →
  ∀ prev adj,
    pre ≠ "" ∨ adj = false →
    replace_from re repl prev O adj (pre ++ rest) =
    pre ++ replace_from re repl (Shapes.last_byte prev pre) O false rest.
Proof.
  intros Hre. induction pre as [|c pre IH]; intros Hpre prev adj Hadj.
  - destruct Hadj as [?| ->]; [done|reflexivity].
  - cbn [Text.every] in Hpre. apply andb_prop in Hpre as [Hc Hpre].
    unfold Text.plain in Hc. apply andb_prop in Hc as [Hc _].
    apply negb_true_iff in Hc.
    change (String c pre ++ rest) with (String c (pre ++ rest)).
    change (String c pre ++ ?x) with (String c (pre ++ x)).
    cbn [replace_from Shapes.last_byte]. rewrite (Hre _ _ _ Hc).
    f_equal. apply IH; [done|by right].
Qed.

Lemma separator_inv sep :
  Shapes.separator sep = true → sep = "" ∨ sep = "-" ∨ sep = ".".
Proof.
  unfold Shapes.separator. intros H.
  apply orb_prop in H as [H|H]; [apply orb_prop in H as [H|H]|];
    apply String.eqb_eq in H; auto.
Qed.

Lemma append_cons c s t : String c s ++ t = String c (s ++ t).
Proof. reflexivity. Qed.

Lemma append_assoc (s t u : string) : (s ++ t) ++ u = s ++ t ++ u.
Proof. induction s as [|c s IH]; [reflexivity|]. by rewrite !append_cons, IH. Qed.

Lemma length_append (s t : string) :
  String.length (s ++ t) = (String.length s + String.length t)%nat.
Proof. induction s as [|c s IH]; [reflexivity|]. rewrite append_cons. cbn. by rewrite IH. Qed.

Lemma last_byte_append prev s t :
  Shapes.last_byte prev (s ++ t) = Shapes.last_byte (Shapes.last_byte prev s) t.
Proof.
  revert prev. induction s as [|c s IH]; intros prev; [reflexivity|].
  rewrite append_cons. cbn [Shapes.last_byte]. apply IH.
Qed.

(** The bytes of a match are dropped. *)
Lemma replace_from_skip re repl x rest prev :
  replace_from re repl prev (String.length x) true (x ++ rest) =
  replace_from re repl (Shapes.last_byte prev x) O true rest.
Proof.
  revert prev. induction x as [|c x IH]; intros prev; [reflexivity|].
  rewrite append_cons. cbn [String.length replace_from Shapes.last_byte].
  apply IH.
Qed.

(** A match at the current position is replaced, and matching resumes
    behind it. *)
Lemma replace_from_match re repl prev adj m rest :
  m ≠ "" →
  match_here re prev (m ++ rest) = Some (String.length m) →
  replace_from re repl prev O adj (m ++ rest) =
  repl ++ replace_from re repl (Shapes.last_byte prev m) O true rest.
Proof.
  intros Hm Hmatch. destruct m as [|c m]; [done|].
  rewrite append_cons in *. cbn [replace_from]. rewrite Hmatch.
  cbn [String.length Shapes.last_byte]. by rewrite replace_from_skip.
Qed.

(** *** Matching step by step *)

Lemma match_here_boundary re prev s :
  xorb (word_before prev) (word_after s) = true →
  match_here (WordBoundary :: re) prev s = match_here re prev s.
Proof. intros H. cbn [match_here]. by rewrite H. Qed.

Lemma match_here_class p re prev c s :
  p c = true →
  match_here (Class p :: re) prev (String c s) =
  S <$> match_here re (Some c) s.
Proof. intros H. cbn [match_here]. by rewrite H. Qed.

Lemma match_here_class_fails p re prev s :
  match s with String c _ => p c = false | EmptyString => True end →
  match_here (Class p :: re) prev s = None.
Proof. destruct s as [|c s]; [done|]. intros H. cbn [match_here]. by rewrite H. Qed.

Lemma fmap_add (n m : nat) (x : option nat) :
  Nat.add n <$> (Nat.add m <$> x) = Nat.add (n + m) <$> x.
Proof. destruct x; cbn; [f_equal; lia|done]. Qed.

(** A run of [n] digits is matched by [\d{n}]. *)
Lemma match_here_digits n re : ∀ ds prev s,
  Shapes.digits n ds = true →
  match_here (times n is_digit ++ re)%list prev (ds ++ s) =
  Nat.add n <$> match_here re (Shapes.last_byte prev ds) s.
Proof.
  induction n as [|n IH]; intros ds prev s Hd;
    apply digits_inv in Hd as [Hlen Hd]; destruct ds as [|d ds]; try discriminate.
  - change (times 0 is_digit ++ re)%list with re.
    change ("" ++ s) with s. cbn [Shapes.last_byte].
    by destruct (match_here re prev s).
  - cbn [Text.every] in Hd. apply andb_prop in Hd as [Hd1 Hd].
    rewrite append_cons.
    change (times (S n) is_digit ++ re)%list
      with (Class is_digit :: (times n is_digit ++ re)%list).
    rewrite match_here_class by done. rewrite IH.
    + cbn [Shapes.last_byte].
      destruct (match_here re _ s); reflexivity.
    + unfold Shapes.digits. rewrite Hd. cbn in Hlen.
      injection Hlen as ->. by rewrite Nat.eqb_refl.
Qed.

(** [[-.]?] before a digit takes the separator that is there. *)
Lemma match_here_separator re prev sep d s :
  Shapes.separator sep = true → is_digit d = true →
  match_here (Quest dash_or_dot :: Class is_digit :: re) prev
             (sep ++ String d s) =
  Nat.add (String.length sep) <$>
    match_here (Class is_digit :: re) (Shapes.last_byte prev sep) (String d s).
Proof.
  intros Hsep Hd. pose proof (digit_no_separator _ Hd) as Hn.
  assert (Hid : ∀ x : option nat, Nat.add 0 <$> x = x) by (by intros [?|]).
  assert (Hone : ∀ x : option nat, or_else (S <$> x) None = Nat.add 1 <$> x)
    by (by intros [?|]).
  apply separator_inv in Hsep as [->|[->| ->]].
  - change ("" ++ String d s) with (String d s). cbn [String.length Shapes.last_byte].
    rewrite Hid. cbn [match_here]. by rewrite Hn.
  - change ("-" ++ String d s) with (String "-" (String d s)).
    cbn [String.length Shapes.last_byte].
    change (match_here (Quest dash_or_dot :: Class is_digit :: re) prev
              (String "-" (String d s)))
      with (or_else (S <$> match_here (Class is_digit :: re) (Some "-"%char) (String d s))
                    (match_here (Class is_digit :: re) prev (String "-" (String d s)))).
    rewrite (match_here_class_fails is_digit re prev (String "-" (String d s))) by done.
    apply Hone.
  - change ("." ++ String d s) with (String "." (String d s)).
    cbn [String.length Shapes.last_byte].
    change (match_here (Quest dash_or_dot :: Class is_digit :: re) prev
              (String "." (String d s)))
      with (or_else (S <$> match_here (Class is_digit :: re) (Some "."%char) (String d s))
                    (match_here (Class is_digit :: re) prev (String "." (String d s)))).
    rewrite (match_here_class_fails is_digit re prev (String "." (String d s))) by done.
    apply Hone.
Qed.

Lemma digits_last_is_word n ds prev :
  Shapes.digits (S n) ds = true →
  word_before (Shapes.last_byte prev ds) = true.
Proof.
  revert ds prev. induction n as [|n IH]; intros ds prev Hd;
    apply digits_inv in Hd as [Hlen Hd];
    destruct ds as [|d ds]; try discriminate;
    cbn [Text.every] in Hd; apply andb_prop in Hd as [Hd1 Hd].
  - destruct ds; [|discriminate]. cbn. by apply digit_is_word.
  - cbn [Shapes.last_byte]. apply IH. unfold Shapes.digits. rewrite Hd.
    cbn in Hlen. injection Hlen as ->. by rewrite Nat.eqb_refl.
Qed.

Lemma digits_first n ds :
  Shapes.digits (S n) ds = true →
  ∃ d ds', ds = String d ds' ∧ is_digit d = true.
Proof.
  intros Hd. apply digits_inv in Hd as [Hlen Hd].
  destruct ds as [|d ds]; [discriminate|].
  cbn [Text.every] in Hd. apply andb_prop in Hd as [Hd1 _]. by exists d, ds.
Qed.

(** A phone number between two boundaries is matched whole. *)
Lemma phonePattern_matches prev area sep1 prefix sep2 line post :
  Shapes.digits 3 area = true → Shapes.separator sep1 = true →
  Shapes.digits 3 prefix = true → Shapes.separator sep2 = true →
  Shapes.digits 4 line = true →
  word_before prev = false → word_after post = false →
  match_here phonePattern prev
    ((area ++ sep1 ++ prefix ++ sep2 ++ line) ++ post) =
  Some (String.length (area ++ sep1 ++ prefix ++ sep2 ++ line)).
Proof.
  intros Ha Hs1 Hp Hs2 Hl Hprev Hpost.
  rewrite !append_assoc.
  destruct (digits_first _ _ Ha) as (a1 & area' & Harea & Ha1).
  destruct (digits_first _ _ Hp) as (b1 & prefix' & Hprefix & Hb1).
  destruct (digits_first _ _ Hl) as (c1 & line' & Hline & Hc1).
  unfold phonePattern.
  change ([WordBoundary] ++ ?x)%list with (WordBoundary :: x).
  rewrite match_here_boundary.
  2:{ rewrite Hprev, Harea, append_cons. cbn [word_after].
      by rewrite (digit_is_word _ Ha1). }
  rewrite match_here_digits by done.
  change ([Quest dash_or_dot] ++ times 3 is_digit ++ ?x)%list
    with (Quest dash_or_dot :: Class is_digit :: (times 2 is_digit ++ x)%list).
  rewrite Hprefix at 1. rewrite (append_cons b1).
  rewrite match_here_separator by done.
  change (Class is_digit :: (times 2 is_digit ++ ?x)%list)
    with (times 3 is_digit ++ x)%list.
  rewrite <- (append_cons b1), <- Hprefix.
  rewrite match_here_digits by done.
  change ([Quest dash_or_dot] ++ times 4 is_digit ++ ?x)%list
    with (Quest dash_or_dot :: Class is_digit :: (times 3 is_digit ++ x)%list).
  rewrite Hline at 1. rewrite (append_cons c1).
  rewrite match_here_separator by done.
  change (Class is_digit :: (times 3 is_digit ++ ?x)%list)
    with (times 4 is_digit ++ x)%list.
  rewrite <- (append_cons c1), <- Hline.
  rewrite match_here_digits by done.
  rewrite match_here_boundary.
  2:{ rewrite Hpost. by rewrite (digits_last_is_word 3 line). }
  cbn [match_here]. rewrite !fmap_add. cbn [fmap option_fmap option_map].
  f_equal. rewrite !length_append.
  apply digits_inv in Ha as [-> _]. apply digits_inv in Hp as [-> _].
  apply digits_inv in Hl as [-> _]. lia.
Qed.

(** X7: a phone number (three digits, three digits and four digits,
    each pair apart by nothing, a dash or a dot) that stands between
    two word boundaries, in a text that is otherwise without digits and
    at signs, is replaced by the marker, and nothing else of the text
    is changed. *)
Theorem redactPII_replaces_phone_number pre area sep1 prefix sep2 line post :
  Text.every Text.plain pre = true → Text.every Text.plain post = true →
  Shapes.digits 3 area = true → Shapes.separator sep1 = true →
  Shapes.digits 3 prefix = true → Shapes.separator sep2 = true →
  Shapes.digits 4 line = true →
  word_before (Shapes.last_byte None pre) = false →
  word_after post = false →
  redactPII (pre ++ (area ++ sep1 ++ prefix ++ sep2 ++ line) ++ post) =
  pre ++ "[REDACTED]" ++ post.
Proof.
  intros Hpre Hpost Ha Hs1 Hp Hs2 Hl Hbefore Hafter.
  assert (Hphone :
    ReplaceAllString phonePattern
      (pre ++ (area ++ sep1 ++ prefix ++ sep2 ++ line) ++ post) "[REDACTED]"
    = pre ++ "[REDACTED]" ++ post).
  { unfold ReplaceAllString.
    rewrite replace_from_plain_prefix; [|..|by right]; [|
      intros prev c s Hc; unfold phonePattern;
      change ([WordBoundary] ++ times 3 is_digit ++ ?x)%list
        with (WordBoundary :: Class is_digit :: (times 2 is_digit ++ x)%list);
      cbn [match_here]; rewrite Hc; by destruct (xorb _ _) | done].
    f_equal. rewrite replace_from_match.
    - f_equal. apply replace_from_no_match; [|done].
      apply phonePattern_needs_digit.
    - destruct (digits_first _ _ Ha) as (a1 & area' & -> & _). done.
    - by apply phonePattern_matches. }
  assert (Hplain : Text.every Text.plain (pre ++ "[REDACTED]" ++ post) = true).
  { rewrite !every_app, Hpre, Hpost. reflexivity. }
  unfold redactPII. rewrite Hphone.
  unfold ReplaceAllString.
  rewrite (replace_from_no_match ssnPattern) by
    (done || apply ssnPattern_needs_digit).
  by rewrite (replace_from_no_match emailPattern) by
    (done || apply emailPattern_needs_at).
Qed.

Lemma redactPII_replaces_phone_number_witness :
  redactPII ("call " ++ ("800" ++ "." ++ "555" ++ "" ++ "0199") ++ ", then hang up")
  = "call [REDACTED], then hang up".
Proof.
  apply (redactPII_replaces_phone_number "call " "800" "." "555" "" "0199"
           ", then hang up"); vm_compute; reflexivity.
Defined.

End RedactionInContext.

Section SsnInContext.
Import GoStrings Regexp Worker.

(** *** What a match needs *)

Lemma boundary_inv re prev s n :
  match_here (WordBoundary :: re) prev s = Some n →
  match_here re prev s = Some n.
Proof. cbn [match_here]. by destruct (xorb _ _). Qed.

Lemma digits_run_inv n re : ∀ prev s k,
  match_here (times n is_digit ++ re)%list prev s = Some k →
  ∃ prev' s' k',
    match_here re prev' s' = Some k' ∧
    (n + Shapes.count_digits s' ≤ Shapes.count_digits s)%nat.
Proof.
  induction n as [|n IH]; intros prev s k H.
  - exists prev, s, k. split; [exact H|lia].
  - change (times (S n) is_digit ++ re)%list
      with (Class is_digit :: (times n is_digit ++ re)%list) in H.
    cbn [match_here] in H. destruct s as [|c s]; [discriminate|].
    destruct (is_digit c) eqn:Hc; [|discriminate].
    destruct (match_here (times n is_digit ++ re)%list (Some c) s) as [k'|] eqn:Hk;
      [|discriminate].
    destruct (IH _ _ _ Hk) as (prev' & s' & k'' & Hm & Hcount).
    exists prev', s', k''. split; [exact Hm|].
    cbn [Shapes.count_digits]. rewrite Hc. lia.
Qed.

Lemma quest_inv p re prev s n :
  match_here (Quest p :: re) prev s = Some n →
  ∃ prev' s' n',
    match_here re prev' s' = Some n' ∧
    (Shapes.count_digits s' ≤ Shapes.count_digits s)%nat.
Proof.
  cbn [match_here]. destruct s as [|c s].
  - intros H. by exists prev, "", n.
  - destruct (p c).
    + destruct (match_here re (Some c) s) as [k|] eqn:Hk.
      * intros _. exists (Some c), s, k. split; [done|]. cbn [Shapes.count_digits]. lia.
      * cbn. intros H. by exists prev, (String c s), n.
    + intros H. by exists prev, (String c s), n.
Qed.

(** The phone pattern matches ten digits at least. *)
Lemma phonePattern_needs_ten_digits prev s n :
  match_here phonePattern prev s = Some n →
  (10 ≤ Shapes.count_digits s)%nat.
Proof.
  unfold phonePattern.
  change ([WordBoundary] ++ ?x)%list with (WordBoundary :: x).
  intros H. apply boundary_inv in H.
  apply digits_run_inv in H as (p1 & s1 & k1 & H & Hc1).
  change ([Quest dash_or_dot] ++ ?x)%list with (Quest dash_or_dot :: x) in H.
  apply quest_inv in H as (p2 & s2 & k2 & H & Hc2).
  apply digits_run_inv in H as (p3 & s3 & k3 & H & Hc3).
  change ([Quest dash_or_dot] ++ ?x)%list with (Quest dash_or_dot :: x) in H.
  apply quest_inv in H as (p4 & s4 & k4 & H & Hc4).
  apply digits_run_inv in H as (p5 & s5 & k5 & H & Hc5).
  lia.
Qed.

(** Where no match can start, the text is copied. *)
Lemma replace_from_never re repl (P : string → Prop) :
  (∀ c s, P (String c s) → P s) →
  (∀ prev s, P s → match_here re prev s = None) →
  ∀ s, P s → ∀ prev adj, replace_from re repl prev O adj s = s.
Proof.
  intros Htail Hno. induction s as [|c s IH]; intros Hs prev adj.
  - cbn. by rewrite Hno.
  - cbn [replace_from]. rewrite Hno by done. f_equal. apply IH. by eapply Htail.
Qed.

Lemma count_digits_app s t :
  Shapes.count_digits (s ++ t) =
  (Shapes.count_digits s + Shapes.count_digits t)%nat.
Proof.
  induction s as [|c s IH]; [reflexivity|].
  rewrite append_cons. cbn [Shapes.count_digits]. rewrite IH. lia.
Qed.

Lemma count_digits_plain s :
  Text.every Text.plain s = true → Shapes.count_digits s = O.
Proof.
  induction s as [|c s IH]; [reflexivity|]. cbn [Text.every Shapes.count_digits].
  intros H. apply andb_prop in H as [Hc Hs]. unfold Text.plain in Hc.
  apply andb_prop in Hc as [Hc _]. apply negb_true_iff in Hc.
  rewrite Hc, IH by done. reflexivity.
Qed.

Lemma count_digits_le s : (Shapes.count_digits s ≤ String.length s)%nat.
Proof.
  induction s as [|c s IH]; [done|]. cbn. destruct (is_digit c); lia.
Qed.

Lemma count_digits_digits n s :
  Shapes.digits n s = true → (Shapes.count_digits s ≤ n)%nat.
Proof.
  intros H. apply digits_inv in H as [<- _]. apply count_digits_le.
Qed.

Lemma class_inv p re prev s n :
  match_here (Class p :: re) prev s = Some n →
  ∃ prev' s' n',
    match_here re prev' s' = Some n' ∧
    (Shapes.count_digits s' ≤ Shapes.count_digits s)%nat.
Proof.
  cbn [match_here]. destruct s as [|c s]; [discriminate|].
  destruct (p c); [|discriminate].
  destruct (match_here re (Some c) s) as [k|] eqn:Hk; [|discriminate].
  intros _. exists (Some c), s, k. split; [done|]. cbn [Shapes.count_digits]. lia.
Qed.

(** The pattern of the social security numbers matches nine digits at
    least. *)
Lemma ssnPattern_needs_nine_digits prev s n :
  match_here ssnPattern prev s = Some n →
  (9 ≤ Shapes.count_digits s)%nat.
Proof.
  unfold ssnPattern.
  change ([WordBoundary] ++ ?x)%list with (WordBoundary :: x).
  intros H. apply boundary_inv in H.
  apply digits_run_inv in H as (p1 & s1 & k1 & H & Hc1).
  change ([Class dash] ++ ?x)%list with (Class dash :: x) in H.
  apply class_inv in H as (p2 & s2 & k2 & H & Hc2).
  apply digits_run_inv in H as (p3 & s3 & k3 & H & Hc3).
  change ([Class dash] ++ ?x)%list with (Class dash :: x) in H.
  apply class_inv in H as (p4 & s4 & k4 & H & Hc4).
  apply digits_run_inv in H as (p5 & s5 & k5 & H & Hc5).
  lia.
Qed.

Lemma phone_pass_few_digits text :
  (Shapes.count_digits text < 10)%nat →
  ReplaceAllString phonePattern text "[REDACTED]" = text.
Proof.
  intros Hfew. unfold ReplaceAllString.
  apply (replace_from_never phonePattern "[REDACTED]"
           (fun s => (Shapes.count_digits s < 10)%nat)).
  - intros c s. cbn [Shapes.count_digits]. lia.
  - intros prev s Hs.
    destruct (match_here phonePattern prev s) as [n|] eqn:Hm; [|reflexivity].
    apply phonePattern_needs_ten_digits in Hm. lia.
  - exact Hfew.
Qed.

Lemma ssn_pass_few_digits text :
  (Shapes.count_digits text < 9)%nat →
  ReplaceAllString ssnPattern text "[REDACTED]" = text.
Proof.
  intros Hfew. unfold ReplaceAllString.
  apply (replace_from_never ssnPattern "[REDACTED]"
           (fun s => (Shapes.count_digits s < 9)%nat)).
  - intros c s. cbn [Shapes.count_digits]. lia.
  - intros prev s Hs.
    destruct (match_here ssnPattern prev s) as [n|] eqn:Hm; [|reflexivity].
    apply ssnPattern_needs_nine_digits in Hm. lia.
  - exact Hfew.
Qed.

(** X8: a text with fewer than nine digits holds neither a phone number
    nor a social security number for the patterns: the first two passes
    return it as it is, and what [redactPII] returns is what the email
    pass makes of it. *)
Theorem redactPII_few_digits text :
  (Shapes.count_digits text < 9)%nat →
  ReplaceAllString phonePattern text "[REDACTED]" = text ∧
  ReplaceAllString ssnPattern text "[REDACTED]" = text ∧
  redactPII text = ReplaceAllString emailPattern text "[REDACTED]".
Proof.
  intros Hfew.
  assert (Hphone := phone_pass_few_digits text ltac:(lia)).
  assert (Hssn := ssn_pass_few_digits text Hfew).
  split; [exact Hphone|]. split; [exact Hssn|].
  unfold redactPII. by rewrite Hphone, Hssn.
Qed.

Lemma redactPII_few_digits_witness :
  (Shapes.count_digits "ext. 555-0199, room 7" < 9)%nat ∧
  redactPII "ext. 555-0199, room 7" = "ext. 555-0199, room 7".
Proof.
  assert (H : (Shapes.count_digits "ext. 555-0199, room 7" < 9)%nat)
    by (vm_compute; lia).
  split; [exact H|].
  destruct (redactPII_few_digits _ H) as (_ & _ & ->). vm_compute. reflexivity.
Defined.

Lemma match_here_dash re prev s :
  match_here (Class dash :: re) prev (String "-" s) =
  Nat.add 1 <$> match_here re (Some "-"%char) s.
Proof. reflexivity. Qed.

(** A social security number between two boundaries is matched whole. *)
Lemma ssnPattern_matches prev area group serial post :
  Shapes.digits 3 area = true → Shapes.digits 2 group = true →
  Shapes.digits 4 serial = true →
  word_before prev = false → word_after post = false →
  match_here ssnPattern prev
    ((area ++ "-" ++ group ++ "-" ++ serial) ++ post) =
  Some (String.length (area ++ "-" ++ group ++ "-" ++ serial)).
Proof.
  intros Ha Hg Hs Hprev Hpost.
  rewrite !append_assoc.
  destruct (digits_first _ _ Ha) as (a1 & area' & Harea & Ha1).
  unfold ssnPattern.
  change ([WordBoundary] ++ ?x)%list with (WordBoundary :: x).
  rewrite match_here_boundary.
  2:{ rewrite Hprev, Harea, append_cons. cbn [word_after].
      by rewrite (digit_is_word _ Ha1). }
  rewrite match_here_digits by done.
  change ([Class dash] ++ ?x)%list with (Class dash :: x).
  change ("-" ++ ?x) with (String "-" x).
  rewrite match_here_dash.
  rewrite match_here_digits by done.
  change ([Class dash] ++ ?x)%list with (Class dash :: x).
  change ("-" ++ ?x) with (String "-" x).
  rewrite match_here_dash.
  rewrite match_here_digits by done.
  rewrite match_here_boundary.
  2:{ rewrite Hpost. by rewrite (digits_last_is_word 3 serial). }
  cbn [match_here]. rewrite !fmap_add. cbn [fmap option_fmap option_map].
  f_equal.
  apply digits_inv in Ha as [Hla _]. apply digits_inv in Hg as [Hlg _].
  apply digits_inv in Hs as [Hls _].
  repeat (rewrite ?length_append; cbn [String.length]). lia.
Qed.

(** X9: a social security number (three digits, two digits and four
    digits with dashes between them) that stands between two word
    boundaries, in a text that is otherwise without digits and at
    signs, is left alone by the phone pattern and replaced by the
    marker, and nothing else of the text is changed. *)
Theorem redactPII_replaces_ssn pre area group serial post :
  Text.every Text.plain pre = true → Text.every Text.plain post = true →
  Shapes.digits 3 area = true → Shapes.digits 2 group = true →
  Shapes.digits 4 serial = true →
  word_before (Shapes.last_byte None pre) = false →
  word_after post = false →
  redactPII (pre ++ (area ++ "-" ++ group ++ "-" ++ serial) ++ post) =
  pre ++ "[REDACTED]" ++ post.
Proof.
  intros Hpre Hpost Ha Hg Hs Hbefore Hafter.
  set (text := pre ++ (area ++ "-" ++ group ++ "-" ++ serial) ++ post).
  assert (Hphone : ReplaceAllString phonePattern text "[REDACTED]" = text).
  { apply phone_pass_few_digits.
    unfold text. rewrite !count_digits_app.
    rewrite (count_digits_plain pre), (count_digits_plain post) by done.
    pose proof (count_digits_digits _ _ Ha).
    pose proof (count_digits_digits _ _ Hg).
    pose proof (count_digits_digits _ _ Hs).
    change (Shapes.count_digits "-") with O. lia. }
  assert (Hssn :
    ReplaceAllString ssnPattern text "[REDACTED]" = pre ++ "[REDACTED]" ++ post).
  { unfold ReplaceAllString, text.
    rewrite replace_from_plain_prefix; [|..|by right]; [|
      intros prev c s Hc; unfold ssnPattern;
      change ([WordBoundary] ++ times 3 is_digit ++ ?x)%list
        with (WordBoundary :: Class is_digit :: (times 2 is_digit ++ x)%list);
      cbn [match_here]; rewrite Hc; by destruct (xorb _ _) | done].
    f_equal. rewrite replace_from_match.
    - f_equal. apply replace_from_no_match; [|done].
      apply ssnPattern_needs_digit.
    - destruct (digits_first _ _ Ha) as (a1 & area' & -> & _). done.
    - by apply ssnPattern_matches. }
  assert (Hplain : Text.every Text.plain (pre ++ "[REDACTED]" ++ post) = true).
  { rewrite !every_app, Hpre, Hpost. reflexivity. }
  unfold redactPII. fold text. rewrite Hphone, Hssn.
  unfold ReplaceAllString.
  by rewrite (replace_from_no_match emailPattern) by
    (done || apply emailPattern_needs_at).
Qed.

Lemma redactPII_replaces_ssn_witness :
  redactPII ("ssn: " ++ ("123" ++ "-" ++ "45" ++ "-" ++ "6789") ++ " (verified)")
  = "ssn: [REDACTED] (verified)".
Proof.
  apply (redactPII_replaces_ssn "ssn: " "123" "45" "6789" " (verified)");
    vm_compute; reflexivity.
Defined.

End SsnInContext.

Section EmailInContext.
Import GoStrings Regexp Worker.

(** *** The greedy run of a class *)

(** A run of the class that cannot go on matches what follows it. *)
Lemma match_here_plus p re : ∀ run prev rest n,
  Shapes.run p run = true →
  match_here (Plus p :: re) (Shapes.last_byte prev run) rest = None →
  match_here re (Shapes.last_byte prev run) rest = Some n →
  match_here (Plus p :: re) prev (run ++ rest) = Some (String.length run + n)%nat.
Proof.
  unfold Shapes.run. induction run as [|c run IH]; intros prev rest n Hrun Hstop Hre;
    [done|].
  cbn [negb andb String.eqb Text.every] in Hrun.
  apply andb_prop in Hrun as [Hc Hrun].
  rewrite append_cons. cbn [Shapes.last_byte] in Hstop, Hre.
  change (match_here (Plus p :: re) prev (String c (run ++ rest))) with
    (if p c
     then S <$> or_else (match_here (Plus p :: re) (Some c) (run ++ rest))
                        (match_here re (Some c) (run ++ rest))
     else None).
  rewrite Hc. destruct run as [|c' run].
  - cbn [Shapes.last_byte] in Hstop, Hre.
    change ("" ++ rest) with rest. by rewrite Hstop, Hre.
  - rewrite (IH (Some c) rest n); [reflexivity| |exact Hstop|exact Hre].
    by rewrite Hrun.
Qed.

(** No run of the class is followed by a byte of the class [q] where
    the text has none. *)
Lemma match_here_plus_stops p q re : ∀ t prev rest,
  Text.every (fun c => negb (q c)) t = true →
  Shapes.starts_outside p rest = true →
  Shapes.starts_outside q rest = true →
  ∀ c, match_here (Plus p :: Class q :: re) prev (String c (t ++ rest)) = None.
Proof.
  induction t as [|c' t IH]; intros prev rest Ht Hp Hq c.
  - change ("" ++ rest) with rest.
    change (match_here (Plus p :: Class q :: re) prev (String c rest)) with
      (if p c
       then S <$> or_else (match_here (Plus p :: Class q :: re) (Some c) rest)
                          (match_here (Class q :: re) (Some c) rest)
       else None).
    destruct (p c); [|reflexivity].
    destruct rest as [|r rest]; [reflexivity|].
    cbn [Shapes.starts_outside] in Hp, Hq.
    apply negb_true_iff in Hp. apply negb_true_iff in Hq.
    cbn [match_here]. by rewrite Hp, Hq.
  - cbn [Text.every] in Ht. apply andb_prop in Ht as [Hc' Ht].
    apply negb_true_iff in Hc'.
    rewrite append_cons.
    change (match_here (Plus p :: Class q :: re) prev
              (String c (String c' (t ++ rest)))) with
      (if p c
       then S <$> or_else (match_here (Plus p :: Class q :: re) (Some c)
                             (String c' (t ++ rest)))
                          (match_here (Class q :: re) (Some c)
                             (String c' (t ++ rest)))
       else None).
    destruct (p c); [|reflexivity].
    rewrite (IH (Some c) rest Ht Hp Hq c').
    cbn [or_else match_here]. by rewrite Hc'.
Qed.

(** No match starts in a text without at sign that ends outside the
    class of the local part. *)
Lemma local_part_stops re : ∀ pre prev rest,
  pre ≠ "" →
  Text.every Text.no_at pre = true →
  Shapes.ends_outside word_dot_dash pre = true →
  match_here (Plus word_dot_dash :: Class at_sign :: re) prev (pre ++ rest) = None.
Proof.
  induction pre as [|c pre IH]; intros prev rest Hne Hat Hend; [done|].
  cbn [Text.every] in Hat. apply andb_prop in Hat as [Hc Hat].
  rewrite append_cons.
  change (match_here (Plus word_dot_dash :: Class at_sign :: re) prev
            (String c (pre ++ rest))) with
    (if word_dot_dash c
     then S <$> or_else (match_here (Plus word_dot_dash :: Class at_sign :: re)
                           (Some c) (pre ++ rest))
                        (match_here (Class at_sign :: re) (Some c) (pre ++ rest))
     else None).
  destruct (word_dot_dash c) eqn:Hclass; [|reflexivity].
  destruct pre as [|c' pre].
  { unfold Shapes.ends_outside in Hend. cbn [Shapes.last_byte] in Hend.
    by rewrite Hclass in Hend. }
  rewrite (IH (Some c) rest); [|done|done|exact Hend].
  rewrite append_cons. cbn [or_else match_here].
  cbn [Text.every] in Hat. apply andb_prop in Hat as [Hc' _].
  unfold Text.no_at in Hc'. apply negb_true_iff in Hc'. by rewrite Hc'.
Qed.

(** No match starts in a text without at sign. *)
Lemma local_part_needs_at_sign re : ∀ s prev,
  Text.every Text.no_at s = true →
  match_here (Plus word_dot_dash :: Class at_sign :: re) prev s = None.
Proof.
  induction s as [|c s IH]; intros prev Hat; [reflexivity|].
  cbn [Text.every] in Hat. apply andb_prop in Hat as [Hc Hat].
  change (match_here (Plus word_dot_dash :: Class at_sign :: re) prev (String c s)) with
    (if word_dot_dash c
     then S <$> or_else (match_here (Plus word_dot_dash :: Class at_sign :: re)
                           (Some c) s)
                        (match_here (Class at_sign :: re) (Some c) s)
     else None).
  destruct (word_dot_dash c); [|reflexivity].
  rewrite (IH (Some c) Hat). cbn [or_else match_here].
  destruct s as [|c' s]; [reflexivity|].
  cbn [Text.every] in Hat. apply andb_prop in Hat as [Hc' _].
  unfold Text.no_at in Hc'. apply negb_true_iff in Hc'. by rewrite Hc'.
Qed.

Lemma emailPattern_unfold prev s :
  match_here emailPattern prev s =
  if xorb (word_before prev) (word_after s)
  then match_here (Plus word_dot_dash :: Class at_sign ::
                   [Plus word_dot_dash; Class dot; Plus is_word; WordBoundary])
                  prev s
  else None.
Proof. reflexivity. Qed.

(** The email pass copies a text without at sign. *)
Lemma email_pass_no_at s :
  Text.every Text.no_at s = true →
  ∀ prev adj, replace_from emailPattern "[REDACTED]" prev O adj s = s.
Proof.
  apply (replace_from_never emailPattern "[REDACTED]"
           (fun s => Text.every Text.no_at s = true)).
  - intros c s'. cbn [Text.every]. by intros [_ ?]%andb_prop.
  - intros prev s' Hs'. rewrite emailPattern_unfold.
    rewrite local_part_needs_at_sign by done. by destruct (xorb _ _).
Qed.

(** The email pass copies a text without at sign that ends outside the
    class of the local part, whatever follows it. *)
Lemma email_pass_prefix rest : ∀ pre prev adj,
  Text.every Text.no_at pre = true →
  Shapes.ends_outside word_dot_dash pre = true →
  pre ≠ "" ∨ adj = false →
  replace_from emailPattern "[REDACTED]" prev O adj (pre ++ rest) =
  pre ++ replace_from emailPattern "[REDACTED]" (Shapes.last_byte prev pre) O false rest.
Proof.
  induction pre as [|c pre IH]; intros prev adj Hat Hend Hadj.
  - destruct Hadj as [?| ->]; [done|reflexivity].
  - assert (Hno : match_here emailPattern prev (String c pre ++ rest) = None).
    { rewrite emailPattern_unfold, local_part_stops by done.
      by destruct (xorb _ _). }
    rewrite append_cons in *. cbn [replace_from]. rewrite Hno.
    rewrite append_cons. f_equal. cbn [Shapes.last_byte].
    cbn [Text.every] in Hat. apply andb_prop in Hat as [_ Hat].
    apply IH; [exact Hat| |by right].
    destruct pre as [|c' pre]; [reflexivity|exact Hend].
Qed.

Lemma run_first p s :
  Shapes.run p s = true → ∃ c s', s = String c s' ∧ p c = true.
Proof.
  unfold Shapes.run. destruct s as [|c s]; [done|].
  cbn [negb andb String.eqb Text.every]. intros [Hc _]%andb_prop. by exists c, s.
Qed.

Lemma run_last p s prev :
  Shapes.run p s = true →
  ∃ c, Shapes.last_byte prev s = Some c ∧ p c = true.
Proof.
  unfold Shapes.run. revert prev. induction s as [|c s IH]; intros prev; [done|].
  cbn [negb andb String.eqb Text.every Shapes.last_byte].
  intros [Hc Hs]%andb_prop. destruct s as [|c' s].
  - by exists c.
  - apply IH. by rewrite Hs.
Qed.

Lemma word_is_class c : is_word c = true → word_dot_dash c = true.
Proof. unfold word_dot_dash. by intros ->. Qed.

Lemma outside_class_no_word c : word_dot_dash c = false → is_word c = false.
Proof. unfold word_dot_dash. by intros [[? _]%orb_false_elim _]%orb_false_elim. Qed.

Lemma outside_class_no_dot c : word_dot_dash c = false → dot c = false.
Proof. unfold word_dot_dash. by intros [[_ ?]%orb_false_elim _]%orb_false_elim. Qed.

Lemma word_no_dot c : is_word c = true → dot c = false.
Proof.
  unfold dot. destruct (Ascii.eqb_spec c ".") as [->|]; [|done].
  vm_compute. discriminate.
Qed.

Lemma starts_outside_class rest :
  Shapes.starts_outside word_dot_dash rest = true →
  Shapes.starts_outside is_word rest = true ∧
  Shapes.starts_outside dot rest = true ∧
  word_after rest = false.
Proof.
  destruct rest as [|c rest]; [done|]. cbn [Shapes.starts_outside word_after].
  intros H%negb_true_iff.
  by rewrite (outside_class_no_word _ H), (outside_class_no_dot _ H).
Qed.

(** An address between a byte outside the class and a byte outside the
    class is matched whole. *)
Lemma emailPattern_matches prev local domain tld post :
  Shapes.run word_dot_dash local = true → word_after local = true →
  Shapes.run word_dot_dash domain = true →
  Shapes.run is_word tld = true →
  word_before prev = false →
  Shapes.starts_outside word_dot_dash post = true →
  match_here emailPattern prev ((local ++ "@" ++ domain ++ "." ++ tld) ++ post) =
  Some (String.length (local ++ "@" ++ domain ++ "." ++ tld)).
Proof.
  intros Hl Hl1 Hd Ht Hprev Hpost.
  destruct (starts_outside_class _ Hpost) as (Hpw & Hpd & Hafter).
  rewrite !append_assoc.
  change ("@" ++ ?x) with (String "@" x).
  change ("." ++ ?x) with (String "." x).
  rewrite emailPattern_unfold.
  replace (word_after (local ++ String "@" (domain ++ String "." (tld ++ post))))
    with true.
  2:{ destruct (run_first _ _ Hl) as (c & l' & -> & _). by rewrite append_cons. }
  rewrite Hprev. cbn [xorb].
  (* the top-level domain and the boundary behind it *)
  assert (Htld : ∀ prev',
    match_here [Plus is_word; WordBoundary] prev' (tld ++ post) =
    Some (String.length tld + 0)%nat).
  { intros prev'. apply match_here_plus; [exact Ht| |].
    - destruct post as [|c post]; [reflexivity|].
      cbn [Shapes.starts_outside] in Hpw. apply negb_true_iff in Hpw.
      cbn [match_here]. by rewrite Hpw.
    - destruct (run_last _ _ prev' Ht) as (c & -> & Hc).
      cbn [match_here word_before]. by rewrite Hc, Hafter. }
  (* the domain, its run stopped at the last dot *)
  assert (Hdomain : ∀ prev',
    match_here [Plus word_dot_dash; Class dot; Plus is_word; WordBoundary] prev'
      (domain ++ String "." (tld ++ post)) =
    Some (String.length domain + S (String.length tld + 0))%nat).
  { intros prev'. apply match_here_plus; [exact Hd| |].
    - apply match_here_plus_stops; [|exact Hpost|exact Hpd].
      unfold Shapes.run in Ht. apply andb_prop in Ht as [_ Ht].
      clear -Ht. induction tld as [|c tld IH]; [reflexivity|].
      cbn [Text.every] in *. apply andb_prop in Ht as [Hc Ht].
      by rewrite (word_no_dot _ Hc), IH.
    - cbn [match_here]. change (dot ".") with true. cbn iota.
      by rewrite Htld. }
  rewrite (match_here_plus word_dot_dash _ local prev _
             (S (String.length domain + S (String.length tld + 0)))).
  - f_equal. repeat (rewrite ?length_append; cbn [String.length]). lia.
  - exact Hl.
  - reflexivity.
  - cbn [match_here]. change (at_sign "@") with true. cbn iota.
    by rewrite Hdomain.
Qed.

(** X15: an email address (a local part and a domain of letters,
    digits, underscores, dots and dashes, the local part beginning with
    a letter, digit or underscore, and behind the last dot letters,
    digits or underscores) that stands between bytes outside this
    class, in a text of fewer than nine digits and with no other at
    sign, is replaced by the marker, and nothing else of the text is
    changed. *)
Theorem redactPII_replaces_email pre local domain tld post :
  Text.every Text.no_at pre = true → Text.every Text.no_at post = true →
  Shapes.ends_outside word_dot_dash pre = true →
  Shapes.starts_outside word_dot_dash post = true →
  Shapes.run word_dot_dash local = true → word_after local = true →
  Shapes.run word_dot_dash domain = true →
  Shapes.run is_word tld = true →
  (Shapes.count_digits (pre ++ (local ++ "@" ++ domain ++ "." ++ tld) ++ post) < 9)%nat →
  redactPII (pre ++ (local ++ "@" ++ domain ++ "." ++ tld) ++ post) =
  pre ++ "[REDACTED]" ++ post.
Proof.
  intros Hpre Hpost Hend Hstart Hl Hl1 Hd Ht Hfew.
  unfold redactPII.
  rewrite phone_pass_few_digits by lia.
  rewrite ssn_pass_few_digits by exact Hfew.
  unfold ReplaceAllString.
  rewrite email_pass_prefix; [|done|done|by right].
  f_equal. rewrite replace_from_match.
  - f_equal. by apply email_pass_no_at.
  - destruct (run_first _ _ Hl) as (c & l' & -> & _). done.
  - apply emailPattern_matches; try done.
    unfold Shapes.ends_outside in Hend.
    destruct (Shapes.last_byte None pre) as [b|]; [|reflexivity].
    apply negb_true_iff in Hend. cbn [word_before].
    by apply outside_class_no_word.
Qed.

Lemma redactPII_replaces_email_witness :
  redactPII ("mail to " ++ ("j.doe-7" ++ "@" ++ "mail.example" ++ "." ++ "org") ++
             " before 5 pm") =
  "mail to [REDACTED] before 5 pm".
Proof.
  apply (redactPII_replaces_email "mail to " "j.doe-7" "mail.example" "org"
           " before 5 pm"); vm_compute; (reflexivity || lia).
Defined.

End EmailInContext.

Section JsonRoundTrip.
Import GoStrings Json.

(** ** Strings through [encoding/json] *)

Lemma str_cons c s t : String c s ++ t = String c (s ++ t).
Proof. reflexivity. Qed.

Lemma str_assoc (s t u : string) : (s ++ t) ++ u = s ++ t ++ u.
Proof. induction s as [|c s IH]; [reflexivity|]. by rewrite !str_cons, IH. Qed.

Lemma str_length_app (s t : string) :
  String.length (s ++ t) = (String.length s + String.length t)%nat.
Proof.
  induction s as [|c s IH]; [reflexivity|]. rewrite str_cons. cbn. by rewrite IH.
Qed.

Lemma str_nil (s : string) : "" ++ s = s.
Proof. reflexivity. Qed.

Ltac norm_app := repeat first [rewrite str_assoc | rewrite str_cons | rewrite str_nil].

Lemma emit_emit p q r : emit p (emit q r) = emit (p ++ q) r.
Proof. destruct r as [[out rest]|]; [|reflexivity]. cbn. by rewrite str_assoc. Qed.

(** *** Copying the bytes of a rune *)

Lemma quote_from_copy p s :
  quote_from (String.length p) (p ++ s) = p ++ quote_from O s.
Proof.
  induction p as [|c p IH]; [by destruct s|].
  rewrite !str_cons. cbn [String.length quote_from]. by rewrite IH.
Qed.

Lemma string_lit_copy p z :
  z ≠ "" → string_lit (String.length p) (p ++ z) = emit p (string_lit O z).
Proof.
  intros Hz. induction p as [|c p IH].
  - change ("" ++ z) with z. cbn [String.length].
    destruct z as [|c z]; [done|]. by destruct (string_lit O (String c z)) as [[? ?]|].
  - rewrite str_cons. cbn [String.length string_lit]. rewrite IH.
    by rewrite emit_emit.
Qed.

Lemma to_valid_copy p s :
  Pipeline.to_valid_from (String.length p) (p ++ s) =
  p ++ Pipeline.to_valid_from O s.
Proof.
  induction p as [|c p IH]; [by destruct s|].
  rewrite !str_cons. cbn [String.length Pipeline.to_valid_from]. by rewrite IH.
Qed.

(** A well-formed rune of more than one byte: its continuation bytes. *)
Lemma rune_len_inv c s1 n :
  Utf8.rune_len (String c s1) = S n → (128 <= byte_of c)%N →
  ∃ p s1', s1 = p ++ s1' ∧ String.length p = n ∧
           ∀ t, Utf8.rune_len (String c (p ++ t)) = S n.
Proof.
  unfold Utf8.rune_len. intros H Hc.
  destruct (N.ltb_spec (byte_of c) 128); [lia|].
  destruct (byte_of c <? 194)%N; [discriminate|].
  destruct (byte_of c <? 224)%N.
  { destruct s1 as [|c1 s1]; [discriminate|].
    destruct (Utf8.is_cont c1) eqn:H1; [|discriminate]. injection H as <-.
    exists (String c1 ""), s1. split; [done|]. split; [done|].
    intros t. rewrite str_cons. by rewrite H1. }
  destruct (byte_of c <? 240)%N.
  { destruct s1 as [|c1 [|c2 s1]]; try discriminate.
    destruct (in_range _ _ c1 && Utf8.is_cont c2) eqn:H1; [|discriminate].
    injection H as <-.
    exists (String c1 (String c2 "")), s1. split; [done|]. split; [done|].
    intros t. rewrite !str_cons. by rewrite H1. }
  destruct (byte_of c <? 245)%N; [|discriminate].
  destruct s1 as [|c1 [|c2 [|c3 s1]]]; try discriminate.
  destruct (in_range _ _ c1 && Utf8.is_cont c2 && Utf8.is_cont c3) eqn:H1;
    [|discriminate].
  injection H as <-.
  exists (String c1 (String c2 (String c3 ""))), s1.
  split; [done|]. split; [done|].
  intros t. rewrite !str_cons. by rewrite H1.
Qed.

(** *** Escapes *)

Lemma chr_byte_of c : ascii_of_N (byte_of c) = c.
Proof. apply ascii_N_embedding. Qed.

Lemma byte_of_eq c (n : N) : byte_of c = n → c = ascii_of_N n.
Proof. intros <-. by rewrite chr_byte_of. Qed.

Lemma hex_val_hex_digit n : (n < 16)%N → hex_val (hex_digit n) = Some n.
Proof.
  intros Hn.
  assert (H : n ∈ [0;1;2;3;4;5;6;7;8;9;10;11;12;13;14;15]%N).
  { rewrite !elem_of_cons. lia. }
  rewrite !elem_of_cons in H.
  repeat (destruct H as [->|H]; [reflexivity|]). by apply elem_of_nil in H.
Qed.

(** What [escape_byte] writes for an ASCII byte is read back as that
    byte. *)
Lemma string_lit_escape_byte c z :
  (byte_of c < 128)%N →
  string_lit O (escape_byte c ++ z) = emit (String c "") (string_lit O z).
Proof.
  intros Hc. unfold escape_byte.
  destruct (Ascii.eqb_spec c "\") as [->|Hbs]; [reflexivity|].
  destruct (Ascii.eqb_spec c dquote) as [->|Hdq]; [reflexivity|].
  cbn [orb].
  destruct (N.eqb_spec (byte_of c) 8) as [H|_];
    [apply byte_of_eq in H as ->; reflexivity|].
  destruct (N.eqb_spec (byte_of c) 12) as [H|_];
    [apply byte_of_eq in H as ->; reflexivity|].
  destruct (N.eqb_spec (byte_of c) 10) as [H|_];
    [apply byte_of_eq in H as ->; reflexivity|].
  destruct (N.eqb_spec (byte_of c) 13) as [H|_];
    [apply byte_of_eq in H as ->; reflexivity|].
  destruct (N.eqb_spec (byte_of c) 9) as [H|_];
    [apply byte_of_eq in H as ->; reflexivity|].
  destruct ((byte_of c <? 32)%N || Ascii.eqb c "<" || Ascii.eqb c ">"
            || Ascii.eqb c "&") eqn:Hesc.
  - (* the six-byte escape *)
    norm_app.
    cbn [string_lit]. change (Ascii.eqb "\" dquote) with false.
    change (Ascii.eqb "\" "\") with true. cbn iota.
    unfold hex4. change (hex_val "0") with (Some 0%N).
    rewrite !hex_val_hex_digit
      by (try apply N.mod_lt; try apply N.Div0.div_lt_upper_bound; lia).
    replace ((0 * 16 + 0) * 16 + byte_of c / 16)%N with (byte_of c / 16)%N by lia.
    replace (byte_of c / 16 * 16 + byte_of c mod 16)%N with (byte_of c)
      by (rewrite (N.div_mod (byte_of c) 16) at 1; lia).
    assert (Hs : Utf8.is_surrogate (byte_of c) = false).
    { unfold Utf8.is_surrogate. destruct (N.leb_spec 55296 (byte_of c)); [lia|done]. }
    rewrite Hs. unfold Utf8.encode. rewrite Hs.
    destruct (N.ltb_spec 1114111 (byte_of c)); [lia|]. cbn [orb].
    destruct (N.ltb_spec (byte_of c) 128); [|lia].
    unfold Utf8.chr. by rewrite chr_byte_of.
  - (* the byte itself *)
    apply orb_false_elim in Hesc as [Hesc _].
    apply orb_false_elim in Hesc as [Hesc _].
    apply orb_false_elim in Hesc as [Hlow _].
    norm_app. cbn [string_lit].
    destruct (Ascii.eqb_spec c dquote); [done|].
    destruct (Ascii.eqb_spec c "\"); [done|].
    rewrite Hlow. by destruct (N.ltb_spec (byte_of c) 128); [|lia].
Qed.

(** *** Runes of more than one byte *)

Lemma quote_from_rune c s1 n :
  Utf8.rune_len (String c s1) = S n → (128 <= byte_of c)%N →
  quote_from O (String c s1) =
  match s1 with
  | String c1 (String c2 s4) =>
      if Pipeline.line_separator c c1 c2
      then "\u202" ++ String (if Ascii.eqb c2 "168" then "8" else "9")%char
                        (quote_from O s4)
      else String c (quote_from n s1)
  | _ => String c (quote_from n s1)
  end.
Proof.
  intros Hlen Hc. cbn [quote_from]. rewrite Hlen.
  destruct (N.ltb_spec (byte_of c) 128); [lia|]. clear.
  unfold Pipeline.line_separator.
  destruct s1 as [|c1 [|c2 s4]];
    destruct c as [[] [] [] [] [] [] [] []]; try reflexivity;
    destruct c1 as [[] [] [] [] [] [] [] []]; try reflexivity;
    destruct c2 as [[] [] [] [] [] [] [] []]; reflexivity.
Qed.

Lemma line_separator_inv c c1 c2 :
  Pipeline.line_separator c c1 c2 = true →
  c = "226"%char ∧ c1 = "128"%char ∧
  (c2 = "168"%char ∨ c2 = "169"%char).
Proof.
  unfold Pipeline.line_separator. intros H.
  apply andb_prop in H as [H H2]. apply andb_prop in H as [H0 H1].
  apply Ascii.eqb_eq in H0, H1. apply orb_prop in H2.
  split; [done|]. split; [done|].
  destruct H2 as [H2|H2]; apply Ascii.eqb_eq in H2; auto.
Qed.

Lemma high_byte_plain c :
  (128 <= byte_of c)%N →
  Ascii.eqb c dquote = false ∧ Ascii.eqb c "\" = false ∧
  (byte_of c <? 32)%N = false ∧ (byte_of c <? 128)%N = false.
Proof.
  intros Hc. repeat split.
  - destruct (Ascii.eqb_spec c dquote) as [->|]; [cbn in Hc; lia|done].
  - destruct (Ascii.eqb_spec c "\") as [->|]; [cbn in Hc; lia|done].
  - destruct (N.ltb_spec (byte_of c) 32); [lia|done].
  - destruct (N.ltb_spec (byte_of c) 128); [lia|done].
Qed.

Lemma string_lit_replacement z :
  string_lit O ("\ufffd" ++ z) =
  emit (Utf8.encode Utf8.RuneError) (string_lit O z).
Proof. reflexivity. Qed.

Lemma string_lit_line_separator z :
  string_lit O ("\u2028" ++ z) =
  emit (String "226" (String "128" (String "168" ""))) (string_lit O z).
Proof. reflexivity. Qed.

Lemma string_lit_paragraph_separator z :
  string_lit O ("\u2029" ++ z) =
  emit (String "226" (String "128" (String "169" ""))) (string_lit O z).
Proof. reflexivity. Qed.

(** The round trip of a string: what [quote] writes, [string_lit]
    reads back as the string made well-formed. *)
Lemma string_lit_quote_from n : ∀ s rest,
  (String.length s < n)%nat →
  string_lit O (quote_from O s ++ String dquote rest) =
  Some (Pipeline.to_valid_from O s, rest).
Proof.
  induction n as [|n IH]; intros s rest Hlen; [lia|].
  destruct s as [|c s1]; [reflexivity|]. cbn [String.length] in Hlen.
  destruct (N.ltb_spec (byte_of c) 128) as [Hc|Hc].
  - (* an ASCII byte *)
    assert (Hq : quote_from O (String c s1) = escape_byte c ++ quote_from O s1).
    { cbn [quote_from]. by destruct (N.ltb_spec (byte_of c) 128); [|lia]. }
    assert (Hv : Pipeline.to_valid_from O (String c s1) =
                 String c (Pipeline.to_valid_from O s1)).
    { cbn [Pipeline.to_valid_from]. unfold Utf8.rune_len.
      by destruct (N.ltb_spec (byte_of c) 128); [|lia]. }
    rewrite Hq, Hv, str_assoc, string_lit_escape_byte by done.
    by rewrite IH by lia.
  - destruct (Utf8.rune_len (String c s1)) as [|k] eqn:Hrune.
    + (* a byte outside every rune *)
      assert (Hq : quote_from O (String c s1) = "\ufffd" ++ quote_from O s1).
      { cbn [quote_from]. rewrite Hrune.
        by destruct (N.ltb_spec (byte_of c) 128); [lia|]. }
      assert (Hv : Pipeline.to_valid_from O (String c s1) =
                   Utf8.encode Utf8.RuneError ++ Pipeline.to_valid_from O s1).
      { cbn [Pipeline.to_valid_from]. by rewrite Hrune. }
      rewrite Hq, Hv, str_assoc, string_lit_replacement.
      by rewrite IH by lia.
    + (* a rune of several bytes *)
      assert (Hcopy :
        string_lit O (String c (quote_from k s1) ++ String dquote rest) =
        Some (Pipeline.to_valid_from O (String c s1), rest)).
      { destruct (rune_len_inv _ _ _ Hrune Hc) as (p & s1' & -> & Hp & Hext).
        cbn [Pipeline.to_valid_from]. rewrite Hrune.
        rewrite <- Hp, quote_from_copy, to_valid_copy.
        rewrite str_cons, str_assoc. cbn [string_lit].
        destruct (high_byte_plain _ Hc) as (-> & -> & -> & ->).
        rewrite Hext, <- Hp. rewrite string_lit_copy.
        - rewrite IH by (rewrite str_length_app in Hlen; lia). reflexivity.
        - by destruct (quote_from O s1'). }
      rewrite (quote_from_rune _ _ _ Hrune Hc).
      destruct s1 as [|c1 [|c2 s4]]; try exact Hcopy.
      destruct (Pipeline.line_separator c c1 c2) eqn:Hsep; [|exact Hcopy].
      apply line_separator_inv in Hsep as (-> & -> & [->| ->]).
      * change (Ascii.eqb "168" "168") with true. cbn iota.
        change ("\u202" ++ String "8" (quote_from O s4))
          with ("\u2028" ++ quote_from O s4).
        rewrite str_assoc, string_lit_line_separator.
        rewrite IH by (cbn [String.length] in Hlen; lia). reflexivity.
      * change (Ascii.eqb "169" "168") with false. cbn iota.
        change ("\u202" ++ String "9" (quote_from O s4))
          with ("\u2029" ++ quote_from O s4).
        rewrite str_assoc, string_lit_paragraph_separator.
        rewrite IH by (cbn [String.length] in Hlen; lia). reflexivity.
Qed.

(** *** Tokens *)

Lemma tokens_from_skip x rest :
  tokens_from (String.length x) (x ++ rest) = tokens_from O rest.
Proof.
  induction x as [|c x IH]; [by destruct rest|].
  rewrite str_cons. cbn [String.length tokens_from]. apply IH.
Qed.

Lemma tokens_from_quote s rest :
  tokens_from O (quote s ++ rest) =
  cons (TScalar (Str (Pipeline.to_valid s))) <$> tokens_from O rest.
Proof.
  unfold quote. rewrite str_cons, str_assoc, str_cons, str_nil.
  change (tokens_from O (String dquote ?s1))
    with (match string_lit O s1 with
          | Some (str, rest') =>
              cons (TScalar (Str str)) <$>
                tokens_from (String.length s1 - String.length rest') s1
          | None => None
          end).
  rewrite (string_lit_quote_from (S (String.length s))) by lia.
  replace (String.length (quote_from O s ++ String dquote rest)
           - String.length rest)%nat
    with (String.length (quote_from O s ++ String dquote "")).
  - replace (quote_from O s ++ String dquote rest)
      with ((quote_from O s ++ String dquote "") ++ rest)
      by (by rewrite str_assoc, str_cons, str_nil).
    by rewrite tokens_from_skip.
  - rewrite !str_length_app. cbn [String.length]. lia.
Qed.

Lemma tokens_from_begin_object rest :
  tokens_from O ("{" ++ rest) = cons TBeginObject <$> tokens_from O rest.
Proof. reflexivity. Qed.

Lemma tokens_from_end_object rest :
  tokens_from O ("}" ++ rest) = cons TEndObject <$> tokens_from O rest.
Proof. reflexivity. Qed.

Lemma tokens_from_colon rest :
  tokens_from O (":" ++ rest) = cons TColon <$> tokens_from O rest.
Proof. reflexivity. Qed.

Lemma tokens_from_comma rest :
  tokens_from O ("," ++ rest) = cons TComma <$> tokens_from O rest.
Proof. reflexivity. Qed.

(** The text of an object of four string members is read back as that
    object, its strings made well-formed. *)
Lemma parse_object4 k1 v1 k2 v2 k3 v3 k4 v4 :
  parse ("{" ++ quote k1 ++ ":" ++ quote v1 ++
         "," ++ quote k2 ++ ":" ++ quote v2 ++
         "," ++ quote k3 ++ ":" ++ quote v3 ++
         "," ++ quote k4 ++ ":" ++ quote v4 ++ "}") =
  Some (Object [(Pipeline.to_valid k1, Str (Pipeline.to_valid v1));
                (Pipeline.to_valid k2, Str (Pipeline.to_valid v2));
                (Pipeline.to_valid k3, Str (Pipeline.to_valid v3));
                (Pipeline.to_valid k4, Str (Pipeline.to_valid v4))]).
Proof.
  unfold parse.
  rewrite tokens_from_begin_object.
  repeat (rewrite ?tokens_from_quote, ?tokens_from_colon, ?tokens_from_comma,
            ?tokens_from_end_object).
  reflexivity.
Qed.

End JsonRoundTrip.

Section IngestOutcome.
Import GoStrings Ingest Spec.
Local Open Scope list_scope.

(** ** What the status code tells *)

Lemma handler_status w request :
  match rejection request with
  | Some reason => handler w request = (w, (error_response 400 reason, None))
  | None =>
      ∃ logEvent,
        parse_request w request = inl logEvent ∧
        TenantID logEvent ≠ "" ∧ OriginalText logEvent ≠ "" ∧
        let input := mkSendMessageInput (Marshal logEvent) (queueURL w) in
        handler w request =
        match fault w with
        | Some e =>
            (mkWorld (queueURL w) (random_uuid w) (fault w) (calls w ++ [input])
               (queue w)
               (output w ++ [Slog.mkRecord Slog.LevelError "Failed to enqueue message"
                               [("error", Slog.ErrorValue e)]]),
             (error_response 500 "Internal server error", None))
        | None =>
            (mkWorld (queueURL w) (random_uuid w) (fault w) (calls w ++ [input])
               (queue w ++ [Marshal logEvent]) (output w),
             (mkResponse 202 {["Content-Type" := "application/json"]}
                (accepted_body logEvent), None))
        end
  end.
Proof.
  destruct (rejection request) as [reason|] eqn:Hrej.
  - by apply handler_rejected.
  - destruct (handler_validated w _ Hrej) as (ev & Hparse & _ & _ & Ht & Hx & Hh).
    exists ev. split; [exact Hparse|]. split; [exact Ht|]. split; [exact Hx|].
    cbn zeta in *. rewrite Hh. unfold SendMessage, slog_Error. cbn [fst].
    by destruct (fault w).
Qed.

(** X10: the status code tells what the handler did.  202 is returned
    only when the one SendMessage call, to the configured queue with
    the serialized event, returned without error: the queue took the
    message, and nothing was logged.  500 is returned only when this
    one call was made and returned an error, which was logged; what the
    queue holds then is for the service to say.  400 means that
    nothing happened at all: no call, no record in the log. *)
Theorem status_code_tells_queue_effect w request :
  let r := handler w request in
  (StatusCode r.2.1 = 202%Z →
     fault w = None ∧
     ∃ logEvent,
       parse_request w request = inl logEvent ∧
       calls r.1 = calls w ++ [mkSendMessageInput (Marshal logEvent) (queueURL w)] ∧
       queue r.1 = queue w ++ [Marshal logEvent] ∧
       output r.1 = output w ∧
       r.2.1 = mkResponse 202 {["Content-Type" := "application/json"]}
                 (accepted_body logEvent)) ∧
  (StatusCode r.2.1 = 500%Z →
     ∃ e logEvent,
       fault w = Some e ∧
       parse_request w request = inl logEvent ∧
       calls r.1 = calls w ++ [mkSendMessageInput (Marshal logEvent) (queueURL w)] ∧
       output r.1 =
         output w ++ [Slog.mkRecord Slog.LevelError "Failed to enqueue message"
                        [("error", Slog.ErrorValue e)]]) ∧
  (StatusCode r.2.1 = 400%Z → r.1 = w).
Proof.
  intros r. unfold r. pose proof (handler_status w request) as H.
  destruct (rejection request) as [reason|].
  - rewrite H. cbn [fst snd StatusCode error_response]. by repeat split.
  - destruct H as (ev & Hparse & _ & _ & H). cbn zeta in H. rewrite H.
    destruct (fault w) as [e|];
      cbn [fst snd StatusCode error_response calls queue output].
    + split; [discriminate|]. split; [|discriminate].
      intros _. by exists e, ev.
    + split; [|split; discriminate].
      intros _. split; [reflexivity|]. by exists ev.
Qed.

Lemma status_code_tells_queue_effect_witness :
  let r := handler IngestSamples.world IngestSamples.request_json in
  StatusCode r.2.1 = 202%Z ∧
  queue r.1 =
    [Marshal (mkLogEvent "acme_corp" "101"
                "User 800-555-0199 logged in from 192.168.1.1" "json_upload")].
Proof.
  intros r.
  assert (H : StatusCode r.2.1 = 202%Z) by (vm_compute; reflexivity).
  split; [exact H|].
  destruct (status_code_tells_queue_effect IngestSamples.world
              IngestSamples.request_json) as (H202 & _).
  destruct (H202 H) as (_ & ev & Hparse & _ & Hq & _).
  fold r in Hq. rewrite Hq.
  assert (Hev : parse_request IngestSamples.world IngestSamples.request_json =
                inl (mkLogEvent "acme_corp" "101"
                       "User 800-555-0199 logged in from 192.168.1.1"
                       "json_upload")) by (vm_compute; reflexivity).
  rewrite Hev in Hparse. injection Hparse as <-. reflexivity.
Defined.

(** ** The headers that count *)

Lemma fold_insert_lookup_congr (name : string) (hs : list (string * string))
    (m1 m2 : gmap string string) :
  m1 !! name = m2 !! name →
  fold_left (fun headers kv => <[ToLower kv.1 := kv.2]> headers) hs m1 !! name =
  fold_left (fun headers kv => <[ToLower kv.1 := kv.2]> headers) hs m2 !! name.
Proof.
  revert m1 m2. induction hs as [|[k v] hs IH]; intros m1 m2 H; [exact H|].
  cbn [fold_left]. apply IH. cbn [fst snd].
  destruct (decide (ToLower k = name)) as [->|Hne].
  - by rewrite !lookup_insert_eq.
  - by rewrite !lookup_insert_ne.
Qed.

Lemma handler_reads_two_values w hs hs' body :
  get (normalize hs) "content-type" = get (normalize hs') "content-type" →
  get (normalize hs) "x-tenant-id" = get (normalize hs') "x-tenant-id" →
  handler w (mkRequest hs body) = handler w (mkRequest hs' body).
Proof.
  intros Hct Hti. unfold handler.
  assert (Hp : parse_request w (mkRequest hs body) =
               parse_request w (mkRequest hs' body)).
  { unfold parse_request. cbn [Headers Body]. by rewrite Hct, Hti. }
  by rewrite Hp.
Qed.

(** X11: of the headers of a request the handler reads two, by their
    names in any letter case: a request whose header names are written
    in another letter case gets the same answer in the same world, and
    so does a request with one more header of any other name. *)
Theorem handler_reads_headers_by_lowered_name w body :
  (∀ hs hs',
     (fun kv => (ToLower kv.1, kv.2)) <$> hs =
     (fun kv => (ToLower kv.1, kv.2)) <$> hs' →
     handler w (mkRequest hs body) = handler w (mkRequest hs' body)) ∧
  (∀ before k v after,
     ToLower k ≠ "content-type" → ToLower k ≠ "x-tenant-id" →
     handler w (mkRequest (before ++ (k, v) :: after) body) =
     handler w (mkRequest (before ++ after) body)).
Proof.
  split.
  - intros hs hs' Heq.
    assert (Hn : normalize hs = normalize hs').
    { unfold normalize. generalize (∅ : gmap string string) as m.
      revert hs' Heq. induction hs as [|[k v] hs IH]; intros [|[k' v'] hs'] Heq m;
        try discriminate; [reflexivity|].
      cbn [fmap list_fmap] in Heq. injection Heq as Hk Hv Hrest.
      cbn [fold_left fst snd] in *. rewrite Hk, Hv. by apply IH. }
    apply handler_reads_two_values; by rewrite Hn.
  - intros before k v after H1 H2.
    assert (Hn : ∀ name, ToLower k ≠ name →
              get (normalize (before ++ (k, v) :: after)) name =
              get (normalize (before ++ after)) name).
    { intros name Hne. unfold get, normalize. f_equal.
      rewrite !fold_left_app. cbn [fold_left fst snd].
      apply fold_insert_lookup_congr. by rewrite lookup_insert_ne. }
    apply handler_reads_two_values; by apply Hn.
Qed.

Lemma handler_reads_headers_by_lowered_name_witness :
  handler IngestSamples.world
    (mkRequest [("CONTENT-TYPE", "text/plain"); ("User-Agent", "curl/8.5.0");
                ("x-tenant-id", "beta_inc")] "raw log dump") =
  handler IngestSamples.world
    (mkRequest [("Content-Type", "text/plain"); ("X-Tenant-ID", "beta_inc")]
       "raw log dump").
Proof.
  destruct (handler_reads_headers_by_lowered_name IngestSamples.world "raw log dump")
    as (Hcase & Hextra).
  etransitivity.
  - apply (Hextra [("CONTENT-TYPE", "text/plain")] "User-Agent" "curl/8.5.0"
             [("x-tenant-id", "beta_inc")]); vm_compute; discriminate.
  - apply Hcase. vm_compute. reflexivity.
Defined.

End IngestOutcome.

Section QueueRoundTrip.
Import GoStrings Json.

(** ** What the worker reads is what the ingest service wrote *)

Lemma to_valid_ascii s :
  Text.every Text.ascii s = true → Pipeline.to_valid s = s.
Proof.
  unfold Pipeline.to_valid. induction s as [|c s IH]; [done|].
  cbn [Text.every]. intros [Hc Hs]%andb_prop.
  cbn [Pipeline.to_valid_from Utf8.rune_len]. unfold Text.ascii in Hc.
  rewrite Hc. cbn iota. by rewrite IH.
Qed.

Lemma to_valid_nonempty s : s ≠ "" → Pipeline.to_valid s ≠ "".
Proof.
  destruct s as [|c s]; [done|]. intros _. unfold Pipeline.to_valid.
  cbn [Pipeline.to_valid_from]. by destruct (Utf8.rune_len (String c s)).
Qed.

Lemma Unmarshal_Marshal (ev : Ingest.LogEvent) :
  Worker.Unmarshal (Ingest.Marshal ev) Worker.zero_LogEvent =
  (Pipeline.arrives ev, None).
Proof.
  unfold Worker.Unmarshal.
  change (Ingest.Marshal ev) with
    ("{" ++ quote "tenant_id" ++ ":" ++ quote (Ingest.TenantID ev) ++
     "," ++ quote "log_id" ++ ":" ++ quote (Ingest.LogID ev) ++
     "," ++ quote "original_text" ++ ":" ++ quote (Ingest.OriginalText ev) ++
     "," ++ quote "source" ++ ":" ++ quote (Ingest.Source ev) ++ "}").
  rewrite parse_object4. reflexivity.
Qed.

(** X12: the message the ingest service writes for an event is always
    decoded by the worker, and to that event with its four strings made
    well-formed UTF-8; an event of ASCII strings arrives as it was
    written. *)
Theorem queue_message_round_trip (ev : Ingest.LogEvent) :
  Worker.Unmarshal (Ingest.Marshal ev) Worker.zero_LogEvent =
    (Pipeline.arrives ev, None) ∧
  (Text.every Text.ascii (Ingest.TenantID ev) = true →
   Text.every Text.ascii (Ingest.LogID ev) = true →
   Text.every Text.ascii (Ingest.OriginalText ev) = true →
   Text.every Text.ascii (Ingest.Source ev) = true →
   Pipeline.arrives ev =
   Worker.mkLogEvent (Ingest.TenantID ev) (Ingest.LogID ev)
     (Ingest.OriginalText ev) (Ingest.Source ev)).
Proof.
  split; [apply Unmarshal_Marshal|].
  intros H1 H2 H3 H4. unfold Pipeline.arrives.
  by rewrite !to_valid_ascii.
Qed.

Lemma queue_message_round_trip_witness :
  Worker.Unmarshal
    (Ingest.Marshal (Ingest.mkLogEvent "acme_corp" "101"
                       "User 800-555-0199 logged in" "json_upload"))
    Worker.zero_LogEvent =
  (Worker.mkLogEvent "acme_corp" "101" "User 800-555-0199 logged in"
     "json_upload", None).
Proof.
  destruct (queue_message_round_trip
              (Ingest.mkLogEvent "acme_corp" "101"
                 "User 800-555-0199 logged in" "json_upload")) as (H & Hascii).
  rewrite H, Hascii; reflexivity.
Defined.

(** ** From the request to the record *)

Lemma parse_request_source w request logEvent :
  Ingest.parse_request w request = inl logEvent →
  Ingest.Source logEvent = "json_upload" ∨ Ingest.Source logEvent = "text_upload".
Proof.
  rewrite parse_request_event.
  destruct (Spec.is_json request).
  - destruct (Spec.failed _); [discriminate|]. intros [= <-]. by left.
  - destruct (Spec.is_text request); [|discriminate]. intros [= <-]. by right.
Qed.

(** X13: a request answered with 202 left one message on the queue, and
    the worker never fails to decode it: processing it fails only by the
    failure of the write to the table.  When the write is served, the
    table holds under the tenant and log id of the request a record with
    the text of the request, its redaction, the source of the upload and
    the status PROCESSED; tenant and text are not empty. *)
Theorem accepted_request_is_stored (iw : Ingest.World)
    (request : Ingest.APIGatewayV2HTTPRequest) (w : Worker.World) (id : string) :
  Ingest.StatusCode (Ingest.handler iw request).2.1 = 202%Z →
  ∃ logEvent payload,
    Ingest.parse_request iw request = inl logEvent ∧
    Ingest.queue (Ingest.handler iw request).1 = (Ingest.queue iw ++ [payload])%list ∧
    let tenant := Pipeline.to_valid (Ingest.TenantID logEvent) in
    let text := Pipeline.to_valid (Ingest.OriginalText logEvent) in
    let r := Worker.processMessage w (Worker.mkSQSMessage id payload) in
    tenant ≠ "" ∧ text ≠ "" ∧
    r.2 = hd None (Worker.faults w) ∧
    (hd None (Worker.faults w) = None →
     ∃ item,
       Worker.table r.1 !! (tenant, Pipeline.to_valid (Ingest.LogID logEvent)) =
         Some item ∧
       item !! "tenant_id" = Some tenant ∧
       item !! "original_text" = Some text ∧
       item !! "modified_data" = Some (Worker.redactPII text) ∧
       item !! "source" = Some (Ingest.Source logEvent) ∧
       (Ingest.Source logEvent = "json_upload" ∨
        Ingest.Source logEvent = "text_upload") ∧
       item !! "status" = Some "PROCESSED").
Proof.
  intros H202. pose proof (handler_status iw request) as H.
  destruct (Spec.rejection request) as [reason|].
  { rewrite H in H202. discriminate. }
  destruct H as (ev & Hparse & Ht & Hx & H). cbn zeta in H.
  rewrite H in H202 |- *. destruct (Ingest.fault iw); [discriminate|].
  exists ev, (Ingest.Marshal ev). split; [exact Hparse|]. split; [reflexivity|].
  cbn zeta. split; [by apply to_valid_nonempty|]. split; [by apply to_valid_nonempty|].
  pose proof (processMessage_decoded w (Worker.mkSQSMessage id (Ingest.Marshal ev))
                _ (Unmarshal_Marshal ev)) as Hp.
  cbn zeta in Hp. rewrite Hp.
  destruct (hd None (Worker.faults w)) as [e|]; [by split|].
  split; [reflexivity|]. intros _.
  destruct (parse_request_source _ _ _ Hparse) as [Hs|Hs].
  all: eexists; split;
    [cbn [fst Worker.slog Worker.table Pipeline.arrives Worker.TenantID Worker.LogID];
     apply lookup_insert_eq|].
  all: unfold Worker.item_of, Pipeline.arrives;
    cbn [Worker.TenantID Worker.LogID Worker.Source Worker.OriginalText];
    rewrite Hs.
  all: repeat split; auto.
Qed.

Lemma accepted_request_is_stored_witness :
  ∃ item,
    Worker.table
      (Worker.processMessage Samples.worker_world
         (Worker.mkSQSMessage "m-1"
            (Ingest.Marshal
               (Ingest.mkLogEvent "acme_corp" "101"
                  "User 800-555-0199 logged in from 192.168.1.1"
                  "json_upload")))).1 !! ("acme_corp", "101") = Some item ∧
    item !! "modified_data" =
      Some "User [REDACTED] logged in from 192.168.1.1".
Proof.
  assert (H202 : Ingest.StatusCode
            (Ingest.handler IngestSamples.world IngestSamples.request_json).2.1 =
            202%Z) by (vm_compute; reflexivity).
  destruct (accepted_request_is_stored IngestSamples.world
              IngestSamples.request_json Samples.worker_world "m-1" H202)
    as (ev & payload & Hparse & Hq & _ & _ & _ & Hstored).
  assert (Hev : Ingest.parse_request IngestSamples.world IngestSamples.request_json =
                inl (Ingest.mkLogEvent "acme_corp" "101"
                       "User 800-555-0199 logged in from 192.168.1.1"
                       "json_upload")) by (vm_compute; reflexivity).
  rewrite Hev in Hparse. injection Hparse as <-.
  assert (Hpay : payload =
            Ingest.Marshal (Ingest.mkLogEvent "acme_corp" "101"
                              "User 800-555-0199 logged in from 192.168.1.1"
                              "json_upload")).
  { revert Hq. vm_compute. intros [= <-]. reflexivity. }
  subst payload.
  destruct (Hstored ltac:(reflexivity)) as (item & Hitem & _ & _ & Hmod & _).
  exists item. split; [exact Hitem|]. rewrite Hmod. vm_compute. reflexivity.
Defined.

End QueueRoundTrip.

Section ResponseBody.
Import GoStrings Json Ingest.

(** ** The body of every response *)

Lemma rejection_reasons request reason :
  Spec.rejection request = Some reason →
  reason ∈ ["Unsupported Content-Type"; "Invalid JSON"; "Missing tenant_id";
            "Missing text content"].
Proof.
  unfold Spec.rejection.
  repeat (match goal with |- context [if ?b then _ else _] => destruct b end);
    intros [= <-]; set_solver.
Qed.

Lemma parse_accepted_body (ev : LogEvent) :
  parse (accepted_body ev) =
  Some (Object [("log_id", Str (Pipeline.to_valid (LogID ev)));
                ("message", Str "Processing queued");
                ("status", Str "accepted");
                ("tenant_id", Str (Pipeline.to_valid (TenantID ev)))]).
Proof.
  change (accepted_body ev) with
    ("{" ++ quote "log_id" ++ ":" ++ quote (LogID ev) ++
     "," ++ quote "message" ++ ":" ++ quote "Processing queued" ++
     "," ++ quote "status" ++ ":" ++ quote "accepted" ++
     "," ++ quote "tenant_id" ++ ":" ++ quote (TenantID ev) ++ "}").
  rewrite parse_object4. reflexivity.
Qed.

(** X14: the body of every response of the handler is the text of a
    JSON object.  The response with 202 carries the header Content-Type
    and an object with the log id, a message, the status and the tenant
    of the event, in this order; every other response has status 400 or
    500, no headers and an object with the one member "error". *)
Theorem response_body_is_json_object (w : World) (request : APIGatewayV2HTTPRequest) :
  let response := (handler w request).2.1 in
  ∃ members,
    parse (ResponseBody response) = Some (Object members) ∧
    ((StatusCode response = 202%Z ∧
      ResponseHeaders response = {["Content-Type" := "application/json"]} ∧
      ∃ logEvent,
        parse_request w request = inl logEvent ∧
        members = [("log_id", Str (Pipeline.to_valid (LogID logEvent)));
                   ("message", Str "Processing queued");
                   ("status", Str "accepted");
                   ("tenant_id", Str (Pipeline.to_valid (TenantID logEvent)))]) ∨
     ((StatusCode response = 400%Z ∨ StatusCode response = 500%Z) ∧
      ResponseHeaders response = ∅ ∧
      ∃ reason, members = [("error", Str reason)])).
Proof.
  cbn zeta. pose proof (handler_status w request) as H.
  destruct (Spec.rejection request) as [reason|] eqn:Hrej.
  - rewrite H. cbn [fst snd error_response ResponseBody StatusCode ResponseHeaders].
    exists [("error", Str reason)]. split.
    + apply rejection_reasons in Hrej.
      repeat (apply elem_of_cons in Hrej as [->|Hrej]; [reflexivity|]).
      by apply elem_of_nil in Hrej.
    + right. split; [by left|]. split; [reflexivity|]. by exists reason.
  - destruct H as (ev & Hparse & _ & _ & H). cbn zeta in H. rewrite H.
    destruct (fault w);
      cbn [fst snd error_response ResponseBody StatusCode ResponseHeaders].
    + exists [("error", Str "Internal server error")]. split; [reflexivity|].
      right. split; [by right|]. split; [reflexivity|]. by eexists.
    + eexists. split; [apply parse_accepted_body|].
      left. split; [reflexivity|]. split; [reflexivity|]. by exists ev.
Qed.

End ResponseBody.
